(** * temci.tester.stats: statistical objects and their diagnostic messages

    A shallow embedding of [src/temci/tester/stats.py]: the message classes
    ([StatMessage] and its subclasses), the merge operator and its
    [combine] loop, the stat objects ([SingleProperty], [Single],
    [TestedPairProperty], [TestedPair], [TestedPairsAndSingles]) with their
    lazily filled [_stat_messages] field, and the tabular projection.

    Conventions of the embedding.
    - Python numbers (int and float) are rationals [Q]: exact arithmetic
      stands for floating point, and a division is meaningful only where
      the divisor is not zero.  The only irrational operation of the file,
      the square root inside [np.std], is the section variable [np_sqrt].
    - A Python exception is the outcome [Raise]; a loop that would not
      finish within its fuel is the outcome [Exhausted].
    - Objects whose identity the code observes ([is], membership in a
      [set], "the same list") carry an address handed out by a counter
      that the monad [M] threads.
    - A stat object is a record parameterised by the type [L] of its
      [_stat_messages] field: [cache] for live objects, [unit] for the
      object as a message sees it through its [parent] reference (no
      method reached through [parent] reads the field). *)

From Stdlib Require Import QArith Sorted Permutation.
From Stdlib Require OrdersEx.
From stdpp Require Import gmap strings list fin_maps.

Set Implicit Arguments.
Unset Strict Implicit.
Set Default Proof Using "Type".

Open Scope string_scope.
Open Scope list_scope.

(** ** Outcomes of a Python computation *)

Inductive exn : Set :=
| AssertionError
| TypeCheckError
| KeyError.

Inductive outcome (A : Type) : Type :=
| Ok (a : A)
| Raise (e : exn)
| Exhausted.

Arguments Ok {A} a.
Arguments Raise {A} e.
Arguments Exhausted {A}.

#[global] Instance outcome_ret : MRet outcome := fun _ a => Ok a.
#[global] Instance outcome_bind : MBind outcome := fun _ _ f m =>
  match m with
  | Ok a => f a
  | Raise e => Raise e
  | Exhausted => Exhausted
  end.

(** [M A]: a computation that may allocate objects.  The state is the next
    free address. *)
Definition M (A : Type) : Type := nat -> outcome (A * nat).

#[global] Instance M_ret : MRet M := fun _ a σ => Ok (a, σ).
#[global] Instance M_bind : MBind M := fun _ _ f m σ =>
  match m σ with
  | Ok (a, σ') => f a σ'
  | Raise e => Raise e
  | Exhausted => Exhausted
  end.

Definition alloc : M nat := fun σ => Ok (σ, S σ).
Definition raise {A} (e : exn) : M A := fun _ => Raise e.
Definition exhausted {A} : M A := fun _ => Exhausted.

(** [assert c] and the [typecheck] helper. *)
Definition assert (c : bool) : M unit :=
  if c then mret tt else raise AssertionError.

(** Modelled from the spec: [typecheck] comes from [temci.utils.typecheck],
    which is not part of the source at hand.  A failed check is a contract
    violation signalled at the call; here it raises [TypeCheckError]. *)
Definition typecheck (c : bool) : M unit :=
  if c then mret tt else raise TypeCheckError.

(** A left-to-right traversal with an accumulator ([for x in l: ...]), in
    either monad. *)
Fixpoint foldM `{MBind F, MRet F} {A B} (f : B -> A -> F B) (b : B)
    (l : list A) : F B :=
  match l with
  | [] => mret b
  | x :: l' => b' ← f b x; foldM f b' l'
  end.

(** ** [sorted] on lists of [str] *)

(** Python compares strings by code point; on byte strings this is
    [String.leb].  [sorted] is stable, and a stable sort of strings is just
    the sorted permutation: insertion sort computes it. *)
Fixpoint insert_sorted (x : string) (l : list string) : list string :=
  match l with
  | [] => [x]
  | y :: l' => if String.leb x y then x :: l else y :: insert_sorted x l'
  end.

Definition sorted (l : list string) : list string :=
  foldr insert_sorted [] l.

Definition str_le (a b : string) : Prop := String.leb a b = true.

(** ** numpy *)

Definition Qsum (a : list Q) : Q := foldr Qplus 0%Q a.

Definition np_mean (a : list Q) : Q :=
  (Qsum a / inject_Z (Z.of_nat (length a)))%Q.

(** [np.var]: the mean of the squared deviations (divided by N). *)
Definition np_var (a : list Q) : Q :=
  np_mean (List.map (fun x => ((x - np_mean a) * (x - np_mean a))%Q) a).

(** [max(a, b)] of Python: [b] when [b > a], else [a]. *)
Definition py_max (a b : Q) : Q :=
  if Qle_bool b a then a else b.

(** ** Collaborators *)

(** Modelled from the spec: [RunData] ([temci.tester.rundata]) is not part of
    the source at hand.  The run collaborator exposes a mapping from
    property name to an ordered sequence of observations, a stable
    description string, and an equality that tests for the same underlying
    run; the run identity is [run_id]. *)
Record RunData : Type := mkRunData {
  run_id : nat;
  run_description : string;
  run_data : gmap string (list Q)
}.

(** [data.properties] of a run: its property names. *)
Definition run_properties (r : RunData) : list string :=
  elements (dom (run_data r)).

(** [data[property]]. *)
Definition run_getitem (r : RunData) (property : string) : outcome (list Q) :=
  match run_data r !! property with
  | Some d => Ok d
  | None => Raise KeyError
  end.

(** [r1 == r2]. *)
Definition rundata_eqb (r1 r2 : RunData) : bool :=
  Nat.eqb (run_id r1) (run_id r2).

(** Modelled from the spec: [Tester] ([temci.tester.testers]) is not part of
    the source at hand.  Only the identity of a tester matters to the code
    modelled below ([self.tester == other.tester]). *)
Record Tester : Type := mkTester {
  tester_id : nat
}.

Definition tester_eqb (t1 t2 : Tester) : bool :=
  Nat.eqb (tester_id t1) (tester_id t2).

(** ** Stat objects *)

(** [L] is the type of the [_stat_messages] field. *)
Record SingleProperty (L : Type) : Type := mkSingleProperty {
  sp_rundata : RunData;
  sp_data : list Q;
  sp_property : string;
  sp_stat_messages : L
}.

Record Single (L : Type) : Type := mkSingle {
  s_rundata : RunData;
  s_properties : gmap string (SingleProperty L);
  s_stat_messages : L
}.

Record TestedPairProperty (L : Type) : Type := mkTestedPairProperty {
  tpp_first : SingleProperty L;
  tpp_second : SingleProperty L;
  tpp_tester : Tester;
  tpp_property : string;
  tpp_stat_messages : L
}.

Record TestedPair (L : Type) : Type := mkTestedPair {
  tp_first : Single L;
  tp_second : Single L;
  tp_tester : Tester;
  tp_properties : gmap string (TestedPairProperty L);
  tp_stat_messages : L
}.

Record TestedPairsAndSingles (L : Type) : Type := mkTestedPairsAndSingles {
  singles : list (Single L);
  pairs : list (TestedPair L);
  c_stat_messages : L
}.

(** A stat object of one of the classes that implement
    [eq_except_property] ([isinstance] is the constructor test). *)
Inductive StatObject (L : Type) : Type :=
| OSingle (s : Single L)
| OSingleProperty (sp : SingleProperty L)
| OTestedPair (tp : TestedPair L)
| OTestedPairProperty (tpp : TestedPairProperty L).

(** The object as seen through a reference that never reads
    [_stat_messages]. *)
Definition view_sp {L} (sp : SingleProperty L) : SingleProperty unit :=
  {| sp_rundata := sp_rundata sp; sp_data := sp_data sp;
     sp_property := sp_property sp; sp_stat_messages := tt |}.

Definition view_s {L} (s : Single L) : Single unit :=
  {| s_rundata := s_rundata s; s_properties := view_sp <$> s_properties s;
     s_stat_messages := tt |}.

Definition view_tpp {L} (tpp : TestedPairProperty L) : TestedPairProperty unit :=
  {| tpp_first := view_sp (tpp_first tpp); tpp_second := view_sp (tpp_second tpp);
     tpp_tester := tpp_tester tpp; tpp_property := tpp_property tpp;
     tpp_stat_messages := tt |}.

Definition view_tp {L} (tp : TestedPair L) : TestedPair unit :=
  {| tp_first := view_s (tp_first tp); tp_second := view_s (tp_second tp);
     tp_tester := tp_tester tp; tp_properties := view_tpp <$> tp_properties tp;
     tp_stat_messages := tt |}.

(** *** [eq_except_property] *)

(** [Single.eq_except_property]; [Single.__eq__] is the same method. *)
Definition Single_eq_except_property {L L'}
    (self : Single L) (other : StatObject L') : bool :=
  match other with
  | OSingle o => rundata_eqb (s_rundata self) (s_rundata o)
  | _ => false
  end.

Definition SingleProperty_eq_except_property {L L'}
    (self : SingleProperty L) (other : StatObject L') : bool :=
  match other with
  | OSingleProperty o => rundata_eqb (sp_rundata self) (sp_rundata o)
  | _ => false
  end.

Definition TestedPair_eq_except_property {L L'}
    (self : TestedPair L) (other : StatObject L') : bool :=
  match other with
  | OTestedPair o =>
      Single_eq_except_property (tp_first self) (OSingle (tp_first o))
      && Single_eq_except_property (tp_second self) (OSingle (tp_second o))
      && tester_eqb (tp_tester self) (tp_tester o)
  | _ => false
  end.

(** [TestedPairProperty.eq_except_property]: the middle conjunct compares
    [self.first] with [self.second]. *)
Definition TestedPairProperty_eq_except_property {L L'}
    (self : TestedPairProperty L) (other : StatObject L') : bool :=
  match other with
  | OTestedPairProperty o =>
      SingleProperty_eq_except_property (tpp_first self)
        (OSingleProperty (tpp_second self))
      && tester_eqb (tpp_tester self) (tpp_tester o)
  | _ => false
  end.

(** Method dispatch on the class of [self]. *)
Definition eq_except_property {L L'}
    (self : StatObject L) (other : StatObject L') : bool :=
  match self with
  | OSingle s => Single_eq_except_property s other
  | OSingleProperty sp => SingleProperty_eq_except_property sp other
  | OTestedPair tp => TestedPair_eq_except_property tp other
  | OTestedPairProperty tpp => TestedPairProperty_eq_except_property tpp other
  end.

(** ** Diagnostic messages *)

Inductive StatMessageType : Set := ERROR | WARNING.

(** The message classes of the file. *)
Inductive MessageClass : Set :=
| StatMessage_
| StatWarning
| StatError
| StdDeviationToHighWarning
| StdDeviationToHighError
| NotEnoughObservationsWarning
| NotEnoughObservationsError
| EffectToSmallWarning
| EffectToSmallError.

#[global] Instance MessageClass_eq_dec : EqDecision MessageClass.
Proof. solve_decision. Defined.

(** The class attribute [type]. *)
Definition type_of (c : MessageClass) : option StatMessageType :=
  match c with
  | StatMessage_ => None
  | StatWarning | StdDeviationToHighWarning | NotEnoughObservationsWarning
  | EffectToSmallWarning => Some WARNING
  | StatError | StdDeviationToHighError | NotEnoughObservationsError
  | EffectToSmallError => Some ERROR
  end.

(** The class attribute [border_value]. *)
Definition border_value (c : MessageClass) : Q :=
  match c with
  | StatMessage_ | StatWarning | StatError => 0
  | StdDeviationToHighWarning => 1 # 100
  | StdDeviationToHighError => 5 # 100
  | NotEnoughObservationsWarning => 30
  | NotEnoughObservationsError => 15
  | EffectToSmallWarning => 2
  | EffectToSmallError => 1
  end%Q.

(** [cls.check_value(value)]: true when the value is acceptable.  The base
    method is [pass], whose result [None] is false in a condition. *)
Definition check_value (c : MessageClass) (value : Q) : bool :=
  match c with
  | StatMessage_ | StatWarning | StatError => false
  | StdDeviationToHighWarning | StdDeviationToHighError =>
      Qle_bool value (border_value c)
  | NotEnoughObservationsWarning | NotEnoughObservationsError
  | EffectToSmallWarning | EffectToSmallError =>
      Qle_bool (border_value c) value
  end.

(** A message object: [msg_id] is its identity. *)
Record StatMessage : Type := mkStatMessage {
  msg_id : nat;
  cls : MessageClass;
  parent : StatObject unit;
  properties : list string;
  values : list Q
}.

(** A list object of messages; [list_id] is its identity. *)
Record PyList : Type := mkPyList {
  list_id : nat;
  items : list StatMessage
}.

(** The [_stat_messages] field of a live object.  [None] is the list that
    [BaseStatObject.__init__] stores: it is empty, and [get_stat_messages]
    replaces it before it hands anything out. *)
Abbreviation cache := (option PyList).

(** [StatMessage.__init__], called as [cls(parent, properties, values)]:
    [inr] is an argument that is not a list. *)
Definition StatMessage_init (c : MessageClass) (parent : StatObject unit)
    (properties : list string + string) (values : list Q + Q) : M StatMessage :=
  let properties := match properties with inl l => l | inr s => [s] end in
  let values := match values with inl l => l | inr v => [v] end in
  _ ← typecheck (bool_decide (0 < length properties));
  _ ← typecheck (bool_decide (length values = length properties));
  a ← alloc;
  mret {| msg_id := a; cls := c; parent := parent;
          properties := sorted properties; values := values |}.

(** The base class named first in the [class] statement. *)
Definition base_class (c : MessageClass) : option MessageClass :=
  match c with
  | StatMessage_ => None
  | StatWarning => Some StatMessage_
  | StatError => Some StatWarning
  | StdDeviationToHighWarning => Some StatWarning
  | StdDeviationToHighError => Some StdDeviationToHighWarning
  | NotEnoughObservationsWarning => Some StatWarning
  | NotEnoughObservationsError => Some NotEnoughObservationsWarning
  | EffectToSmallWarning => Some StatWarning
  | EffectToSmallError => Some EffectToSmallWarning
  end.

(** [issubclass(c, d)], along at most [n] steps to a base class; no class
    of the file is more than three steps below [StatMessage]. *)
Fixpoint issubclass_within (n : nat) (c d : MessageClass) : bool :=
  bool_decide (c = d)
  || match n, base_class c with
     | S n', Some b => issubclass_within n' b d
     | _, _ => false
     end.

Definition issubclass : MessageClass -> MessageClass -> bool :=
  issubclass_within 3.

(** Modelled from the spec: [T] comes from [temci.utils.typecheck], which is
    not part of the source at hand.  [T(cls)] accepts the instances of
    [cls]; the merge operator is meant for two messages of the identical
    kind, which it accepts. *)
Definition T (expected actual : MessageClass) : bool :=
  issubclass actual expected.

(** [StatMessage.__add__]. *)
Definition StatMessage_add (self other : StatMessage) : M StatMessage :=
  _ ← typecheck (T (cls self) (cls other));
  _ ← assert (eq_except_property (parent self) (parent other));
  StatMessage_init (cls self) (parent self)
    (inl (properties self ++ properties other))
    (inl (values self ++ values other)).

(** [cls.create_if_valid(parent, value, properties)]; the assertion on the
    type of [value] holds of every number, and every caller in the file
    passes a property name. *)
Definition create_if_valid (c : MessageClass) (parent : StatObject unit)
    (value : Q) (properties : list string + string) : M (option StatMessage) :=
  if check_value c value then mret None
  else m ← StatMessage_init c parent properties (inr value); mret (Some m).

(** *** [StatMessage.combine] *)

(** [a is b]. *)
Definition same_object (a b : StatMessage) : bool :=
  Nat.eqb (msg_id a) (msg_id b).

(** A [set] of messages (hashed by identity) is the list of its members,
    each once; the list order stands for the iteration order. *)
Fixpoint set_add (m : StatMessage) (s : list StatMessage) : list StatMessage :=
  match s with
  | [] => [m]
  | x :: s' => if same_object x m then s else x :: set_add m s'
  end.

Definition set_remove (m : StatMessage) (s : list StatMessage) : list StatMessage :=
  List.filter (fun x => negb (same_object x m)) s.

Definition py_set (l : list StatMessage) : list StatMessage :=
  foldl (fun s m => set_add m s) [] l.

(** The test of the inner loop on a pair of [itertools.product(msgs, msgs)]. *)
Definition mergeable (msg msg2 : StatMessage) : bool :=
  negb (same_object msg msg2)
  && (eq_except_property (parent msg) (parent msg2)
      && bool_decide (cls msg = cls msg2)).

(** The [for] loop with its [break]: the first pair that passes the test. *)
Definition find_mergeable (msgs : list StatMessage)
    : option (StatMessage * StatMessage) :=
  List.find (fun p => mergeable (fst p) (snd p)) (list_prod msgs msgs).

(** One round of the [while] loop when a pair was found. *)
Definition merge_pair (msgs : list StatMessage) (p : StatMessage * StatMessage)
    : M (list StatMessage) :=
  let msgs := set_remove (snd p) (set_remove (fst p) msgs) in
  merged ← StatMessage_add (fst p) (snd p);
  mret (set_add merged msgs).

(** The [while something_changed] loop. *)
Fixpoint combine_loop (fuel : nat) (msgs : list StatMessage)
    : M (list StatMessage) :=
  match find_mergeable msgs with
  | None => mret msgs
  | Some p =>
      match fuel with
      | O => exhausted
      | S fuel' => msgs' ← merge_pair msgs p; combine_loop fuel' msgs'
      end
  end.

Definition combine (messages : list (option StatMessage)) : M PyList :=
  let msgs := py_set (omap id messages) in
  msgs ← combine_loop (length msgs) msgs;
  a ← alloc;
  mret {| list_id := a; items := msgs |}.

(** ** Construction and statistics of the stat objects *)

Section Stats.

(** The square root of [np.std], and the tester that
    [TesterRegistry.get_for_name] yields for the configured name (registry
    and settings are not part of the source at hand). *)
Variable np_sqrt : Q -> Q.
Variable settings_tester : Tester.

(** [tester or TesterRegistry.get_for_name(...)]; a tester object is true
    in a condition. *)
Definition tester_or_default (tester : option Tester) : Tester :=
  match tester with
  | Some t => t
  | None => settings_tester
  end.

(** *** [SingleProperty] *)

(** [SingleProperty.__init__(parent, data, property)].  The [parent] field
    is stored and never read; the embedding leaves it out. *)
Definition SingleProperty_init (data : RunData + SingleProperty cache)
    (property : string) : outcome (SingleProperty cache) :=
  match data with
  | inl rundata =>
      d ← run_getitem rundata property;
      mret {| sp_rundata := rundata; sp_data := d; sp_property := property;
              sp_stat_messages := None |}
  | inr sp =>
      mret {| sp_rundata := sp_rundata sp; sp_data := sp_data sp;
              sp_property := property; sp_stat_messages := None |}
  end.

Definition mean {L} (self : SingleProperty L) : Q := np_mean (sp_data self).

Definition std_dev {L} (self : SingleProperty L) : Q :=
  np_sqrt (np_var (sp_data self)).

Definition std_dev_per_mean {L} (self : SingleProperty L) : Q :=
  (std_dev self / mean self)%Q.


Definition observations {L} (self : SingleProperty L) : nat :=
  length (sp_data self).



Definition of_int (n : nat) : Q := inject_Z (Z.of_nat n).

(** [str(self)]. *)
Definition SingleProperty_str {L} (self : SingleProperty L) : string :=
  run_description (sp_rundata self).

Definition SingleProperty__get_stat_messages (self : SingleProperty cache)
    : M (list (option StatMessage)) :=
  let me := OSingleProperty (view_sp self) in
  m1 ← create_if_valid StdDeviationToHighWarning me (std_dev_per_mean self)
         (inr (sp_property self));
  m2 ← create_if_valid StdDeviationToHighError me (std_dev_per_mean self)
         (inr (sp_property self));
  m3 ← create_if_valid NotEnoughObservationsWarning me
         (of_int (observations self)) (inr (sp_property self));
  m4 ← create_if_valid NotEnoughObservationsError me
         (of_int (observations self)) (inr (sp_property self));
  mret [m1; m2; m3; m4].

(** *** [BaseStatObject.get_stat_messages] *)

(** [not self._stat_messages]. *)
Definition is_empty (c : cache) : bool :=
  match c with
  | None => true
  | Some l => match items l with [] => true | _ => false end
  end.

(** The inherited method, for a class given by the accessors of its
    [_stat_messages] field and its [_get_stat_messages]; the latter returns
    the object too, since it may fill the fields of the children. *)
Definition BaseStatObject_get_stat_messages {Self : Type}
    (field : Self -> cache) (set_field : Self -> PyList -> Self)
    (_get_stat_messages : Self -> M (list (option StatMessage) * Self))
    (self : Self) : M (PyList * Self) :=
  let fill : M (PyList * Self) :=
    '(msgs, self) ← _get_stat_messages self;
    l ← combine msgs;
    mret (l, set_field self l) in
  match field self with
  | Some l => if is_empty (Some l) then fill else mret (l, self)
  | None => fill
  end.

(** [x.type is ty]; [type] is an attribute of the class of the message. *)
Definition has_type (ty : StatMessageType) (x : StatMessage) : bool :=
  match type_of (cls x), ty with
  | Some ERROR, ERROR | Some WARNING, WARNING => true
  | _, _ => false
  end.

(** [warnings], [errors], [has_errors] and [has_warnings], for a class
    given by its [get_stat_messages]; each returns the object too, whose
    field the call may have filled. *)
Definition BaseStatObject_warnings {Self : Type}
    (get_stat_messages : Self -> M (PyList * Self)) (self : Self)
    : M (list StatMessage * Self) :=
  '(l, self) ← get_stat_messages self;
  mret (List.filter (has_type WARNING) (items l), self).

Definition BaseStatObject_errors {Self : Type}
    (get_stat_messages : Self -> M (PyList * Self)) (self : Self)
    : M (list StatMessage * Self) :=
  '(l, self) ← get_stat_messages self;
  mret (List.filter (has_type ERROR) (items l), self).

Definition BaseStatObject_has_errors {Self : Type}
    (get_stat_messages : Self -> M (PyList * Self)) (self : Self)
    : M (bool * Self) :=
  '(l, self) ← get_stat_messages self;
  mret (existsb (has_type ERROR) (items l), self).

Definition BaseStatObject_has_warnings {Self : Type}
    (get_stat_messages : Self -> M (PyList * Self)) (self : Self)
    : M (bool * Self) :=
  '(l, self) ← get_stat_messages self;
  mret (existsb (has_type WARNING) (items l), self).

Definition SingleProperty_set_stat_messages (self : SingleProperty cache)
    (l : PyList) : SingleProperty cache :=
  {| sp_rundata := sp_rundata self; sp_data := sp_data self;
     sp_property := sp_property self; sp_stat_messages := Some l |}.

Definition SingleProperty_get_stat_messages
    : SingleProperty cache -> M (PyList * SingleProperty cache) :=
  BaseStatObject_get_stat_messages (@sp_stat_messages cache)
    SingleProperty_set_stat_messages
    (fun self => msgs ← SingleProperty__get_stat_messages self; mret (msgs, self)).

(** [SingleProperty.get_data_frame]: a frame is the list of its columns,
    each a name and a series. *)
Definition DataFrame : Type := list (string * list Q).

(** [pd.DataFrame(series_dict, columns=columns)]: the columns named, each
    with the series stored under its name.  (pandas is a library: the frame
    is taken as the list of its series, and the alignment of series of
    different lengths on a common index is outside the embedding.) *)
Definition pd_DataFrame (series_dict : gmap string (list Q))
    (columns : list string) : DataFrame :=
  List.map (fun c => (c, default [] (series_dict !! c))) columns.

(** [frame[name]]: the first column of that name. *)
Definition column (frame : DataFrame) (name : string) : option (list Q) :=
  snd <$> List.find (fun c => String.eqb (fst c) name) frame.

Definition SingleProperty_get_data_frame {L} (self : SingleProperty L)
    : DataFrame :=
  pd_DataFrame {[ sp_property self := sp_data self ]} [sp_property self].

(** *** [Single] *)

(** The keys of a dictionary, in iteration order. *)
Definition keys {V} (d : gmap string V) : list string := (map_to_list d).*1.

Definition Single_init (data : RunData + Single cache) : outcome (Single cache) :=
  let rundata := match data with inl r => r | inr s => s_rundata s end in
  let props := match data with
               | inl r => run_properties r
               | inr s => keys (s_properties s)
               end in
  properties ← foldM (fun (d : gmap string (SingleProperty cache)) prop =>
                  sp ← SingleProperty_init (inl rundata) prop;
                  mret (<[prop := sp]> d)) ∅ props;
  mret {| s_rundata := rundata; s_properties := properties;
          s_stat_messages := None |}.

Definition Single_set_stat_messages (self : Single cache) (l : PyList)
    : Single cache :=
  {| s_rundata := s_rundata self; s_properties := s_properties self;
     s_stat_messages := Some l |}.




(** [Single.get_data_frame]. *)
Definition Single_get_data_frame {L} (self : Single L) : DataFrame :=
  let series_dict :=
    foldl (fun (d : gmap string (list Q)) '(prop, sp) => <[prop := sp_data sp]> d)
      ∅ (map_to_list (s_properties self)) in
  pd_DataFrame series_dict (sorted (keys (s_properties self))).

Definition Single_description {L} (self : Single L) : string :=
  run_description (s_rundata self).

(** *** [TestedPairProperty] *)

(** [TestedPairProperty.__init__(parent, first, second, property, tester)];
    [parent] is stored and never read. *)
Definition TestedPairProperty_init (first second : Single cache)
    (property : string) (tester : option Tester)
    : outcome (TestedPairProperty cache) :=
  f ← SingleProperty_init (inl (s_rundata first)) property;
  s ← SingleProperty_init (inl (s_rundata second)) property;
  mret {| tpp_first := f; tpp_second := s;
          tpp_tester := tester_or_default tester;
          tpp_property := property; tpp_stat_messages := None |}.

Definition mean_diff {L} (self : TestedPairProperty L) : Q :=
  (mean (tpp_first self) - mean (tpp_second self))%Q.

Definition mean_diff_per_mean {L} (self : TestedPairProperty L) : Q :=
  (mean_diff self / mean (tpp_first self))%Q.

Definition mean_std_dev {L} (self : TestedPairProperty L) : Q :=
  ((mean (tpp_first self) + mean (tpp_second self)) / 2)%Q.

Definition max_std_dev {L} (self : TestedPairProperty L) : Q :=
  py_max (mean (tpp_first self)) (mean (tpp_second self)).

Definition mean_diff_per_dev {L} (self : TestedPairProperty L) : Q :=
  (mean_diff self / max_std_dev self)%Q.


Definition TestedPairProperty_set_stat_messages
    (self : TestedPairProperty cache) (l : PyList) : TestedPairProperty cache :=
  {| tpp_first := tpp_first self; tpp_second := tpp_second self;
     tpp_tester := tpp_tester self; tpp_property := tpp_property self;
     tpp_stat_messages := Some l |}.

Definition TestedPairProperty__get_stat_messages
    (self : TestedPairProperty cache)
    : M (list (option StatMessage) * TestedPairProperty cache) :=
  '(l1, first) ← SingleProperty_get_stat_messages (tpp_first self);
  '(l2, second) ← SingleProperty_get_stat_messages (tpp_second self);
  let self := {| tpp_first := first; tpp_second := second;
                 tpp_tester := tpp_tester self;
                 tpp_property := tpp_property self;
                 tpp_stat_messages := tpp_stat_messages self |} in
  let me := OTestedPairProperty (view_tpp self) in
  m1 ← create_if_valid EffectToSmallWarning me (mean_diff_per_dev self)
         (inr (tpp_property self));
  m2 ← create_if_valid EffectToSmallError me (mean_diff_per_dev self)
         (inr (tpp_property self));
  mret ((Some <$> items l1) ++ (Some <$> items l2) ++ [m1; m2], self).

Definition TestedPairProperty_get_stat_messages
    : TestedPairProperty cache -> M (PyList * TestedPairProperty cache) :=
  BaseStatObject_get_stat_messages (@tpp_stat_messages cache)
    TestedPairProperty_set_stat_messages TestedPairProperty__get_stat_messages.

(** [TestedPairProperty.get_data_frame(show_property)]: both series are
    built from [self.first.data]. *)
Definition TestedPairProperty_get_data_frame {L} (self : TestedPairProperty L)
    (show_property : bool) : DataFrame :=
  let columns :=
    if show_property then
      [SingleProperty_str (tpp_first self) +:+ ": " +:+ tpp_property self;
       SingleProperty_str (tpp_second self) +:+ ": " +:+ tpp_property self]
    else [SingleProperty_str (tpp_first self);
          SingleProperty_str (tpp_second self)] in
  let c0 := default "" (columns !! 0%nat) in
  let c1 := default "" (columns !! 1%nat) in
  let series_dict : gmap string (list Q) :=
    <[c1 := sp_data (tpp_first self)]> (<[c0 := sp_data (tpp_first self)]> ∅) in
  pd_DataFrame series_dict columns.

(** *** [TestedPair] *)

(** [TestedPair.__init__(first, second, tester)]: the property comparisons
    get the argument [tester], not [self.tester]. *)
Definition TestedPair_init (first second : RunData + Single cache)
    (tester : option Tester) : outcome (TestedPair cache) :=
  first ← Single_init first;
  second ← Single_init second;
  properties ← foldM (fun (d : gmap string (TestedPairProperty cache)) prop =>
                  tpp ← TestedPairProperty_init first second prop tester;
                  mret (<[prop := tpp]> d)) ∅
                (elements (dom (s_properties first) ∩ dom (s_properties second)));
  mret {| tp_first := first; tp_second := second;
          tp_tester := tester_or_default tester;
          tp_properties := properties; tp_stat_messages := None |}.

(** [TestedPair.swap]. *)
Definition swap (self : TestedPair cache) : outcome (TestedPair cache) :=
  TestedPair_init (inr (tp_second self)) (inr (tp_first self))
    (Some (tp_tester self)).

(** [self[property]]. *)
Definition TestedPair_getitem {L} (self : TestedPair L) (property : string)
    : outcome (TestedPairProperty L) :=
  match tp_properties self !! property with
  | Some tpp => Ok tpp
  | None => Raise KeyError
  end.

Definition TestedPair_set_stat_messages (self : TestedPair cache) (l : PyList)
    : TestedPair cache :=
  {| tp_first := tp_first self; tp_second := tp_second self;
     tp_tester := tp_tester self; tp_properties := tp_properties self;
     tp_stat_messages := Some l |}.

Definition TestedPair_set_properties (self : TestedPair cache)
    (d : gmap string (TestedPairProperty cache)) : TestedPair cache :=
  {| tp_first := tp_first self; tp_second := tp_second self;
     tp_tester := tp_tester self; tp_properties := d;
     tp_stat_messages := tp_stat_messages self |}.

Definition TestedPair__get_stat_messages (self : TestedPair cache)
    : M (list (option StatMessage) * TestedPair cache) :=
  '(msgs, d) ← foldM (fun '(msgs, d) '(prop, tpp) =>
                  '(l, tpp') ← TestedPairProperty_get_stat_messages tpp;
                  mret (msgs ++ (Some <$> items l), <[prop := tpp']> d))
                ([], tp_properties self) (map_to_list (tp_properties self));
  mret (msgs, TestedPair_set_properties self d).

Definition TestedPair_get_stat_messages
    : TestedPair cache -> M (PyList * TestedPair cache) :=
  BaseStatObject_get_stat_messages (@tp_stat_messages cache)
    TestedPair_set_stat_messages TestedPair__get_stat_messages.

(** *** [TestedPairsAndSingles] *)

Definition number_of_singles {L} (self : TestedPairsAndSingles L) : nat :=
  length (singles self).

(** [get_pair(first_id, second_id)] on the list of singles. *)
Definition get_pair_of (singles : list (Single cache)) (first_id second_id : Z)
    : outcome (TestedPair cache) :=
  let l := Z.of_nat (length singles) in
  if bool_decide (0 <= first_id < l)%Z && bool_decide (0 <= second_id < l)%Z then
    match singles !! Z.to_nat first_id, singles !! Z.to_nat second_id with
    | Some a, Some b => TestedPair_init (inr a) (inr b) None
    | _, _ => Raise KeyError
    end
  else Raise AssertionError.

Definition get_pair (self : TestedPairsAndSingles cache)
    (first_id second_id : Z) : outcome (TestedPair cache) :=
  get_pair_of (singles self) first_id second_id.

(** [self[id]]. *)
Definition TestedPairsAndSingles_getitem (self : TestedPairsAndSingles cache)
    (id : Z) : outcome (Single cache) :=
  if bool_decide (0 <= id < Z.of_nat (number_of_singles self))%Z then
    match singles self !! Z.to_nat id with
    | Some s => Ok s
    | None => Raise KeyError
    end
  else Raise AssertionError.

(** The index pairs of the two nested [range] loops. *)
Definition index_pairs (n : nat) : list (Z * Z) :=
  i ← seq 0 (n - 1);
  j ← seq (i + 1) (n - (i + 1));
  [(Z.of_nat i, Z.of_nat j)].

(** [TestedPairsAndSingles.__init__(singles, pairs)]. *)
Definition TestedPairsAndSingles_init (singles : list (RunData + Single cache))
    (pairs : option (list (TestedPair cache)))
    : outcome (TestedPairsAndSingles cache) :=
  singles ← foldM (fun acc data => s ← Single_init data; mret (acc ++ [s]))
             [] singles;
  pairs' ← match pairs with
           | Some ps => mret ps
           | None =>
               if bool_decide (1 < length singles) then
                 foldM (fun acc '(i, j) =>
                          p ← get_pair_of singles i j; mret (acc ++ [p]))
                   [] (index_pairs (length singles))
               else mret []
           end;
  mret {| singles := singles; pairs := pairs'; c_stat_messages := None |}.

(** [TestedPairsAndSingles.properties()]: [None] is the result of the bare
    [return]. *)
Definition TestedPairsAndSingles_properties {L} (self : TestedPairsAndSingles L)
    : option (list string) :=
  match singles self with
  | [] => None
  | single0 :: rest =>
      let props : gset string :=
        foldl (fun props single => props ∩ dom (s_properties single))
          (dom (s_properties single0)) rest in
      Some (sorted (elements props))
  end.

(** [TestedPairsAndSingles.get_stat_messages]: the overriding method. *)
Definition TestedPairsAndSingles_get_stat_messages
    (self : TestedPairsAndSingles cache)
    : M (PyList * TestedPairsAndSingles cache) :=
  a ← alloc;
  '(msgs, ps) ← foldM (fun '(msgs, ps) pair =>
                   '(l, pair') ← TestedPair_get_stat_messages pair;
                   mret (msgs ++ items l, ps ++ [pair']))
                 ([], []) (pairs self);
  mret ({| list_id := a; items := msgs |},
        {| singles := singles self; pairs := ps;
           c_stat_messages := c_stat_messages self |}).

End Stats.

(** ** Example objects *)

(** The square root used in the examples: exact on ratios of perfect
    squares. *)
Definition ex_sqrt (q : Q) : Q :=
  (inject_Z (Z.sqrt (Qnum q)) / inject_Z (Z.sqrt (Zpos (Qden q))))%Q.

Definition ex_tester : Tester := {| tester_id := 1 |}.

(** [n] observations of the value [v]. *)
Definition steady (n : nat) (v : Q) : list Q := replicate n v.

(** Runs that measure "time" 10 and 50 times. *)
Definition run_A10 : RunData :=
  {| run_id := 1; run_description := "A";
     run_data := {[ "time" := steady 10 100%Q ]} |}.

Definition run_B10 : RunData :=
  {| run_id := 2; run_description := "B";
     run_data := {[ "time" := steady 10 200%Q ]} |}.

Definition run_A50 : RunData :=
  {| run_id := 3; run_description := "A";
     run_data := {[ "time" := steady 50 100%Q ]} |}.

(** Runs with two properties. *)
Definition run_C : RunData :=
  {| run_id := 4; run_description := "C";
     run_data := <[ "time" := [1; 2; 3]%Q ]> {[ "mem" := [10; 30]%Q ]} |}.

Definition run_D : RunData :=
  {| run_id := 5; run_description := "D";
     run_data := <[ "time" := [4; 6]%Q ]> {[ "mem" := [50; 70; 90]%Q ]} |}.

(** Runs with the property sets {a, b}, {b, c} and {b}. *)
Definition run_ab : RunData :=
  {| run_id := 6; run_description := "ab";
     run_data := <[ "a" := [1%Q] ]> {[ "b" := [2%Q] ]} |}.

Definition run_bc : RunData :=
  {| run_id := 7; run_description := "bc";
     run_data := <[ "b" := [3%Q] ]> {[ "c" := [4%Q] ]} |}.

Definition run_b : RunData :=
  {| run_id := 8; run_description := "b";
     run_data := {[ "b" := [5%Q] ]} |}.

(** The stat objects that the constructors build from these runs. *)
Definition sp_of (r : RunData) (property : string) : SingleProperty cache :=
  {| sp_rundata := r; sp_data := default [] (run_data r !! property);
     sp_property := property; sp_stat_messages := None |}.

Definition single_of (r : RunData) : Single cache :=
  {| s_rundata := r;
     s_properties := map_imap (fun property _ => Some (sp_of r property))
                       (run_data r);
     s_stat_messages := None |}.

Definition tpp_of (first second : RunData) (property : string)
    : TestedPairProperty cache :=
  {| tpp_first := sp_of first property; tpp_second := sp_of second property;
     tpp_tester := ex_tester; tpp_property := property;
     tpp_stat_messages := None |}.

(** The pair that [TestedPair] builds from two runs that share the
    properties [shared], with the tester of the settings. *)
Definition pair_of (first second : RunData) (shared : list string)
    : TestedPair cache :=
  {| tp_first := single_of first; tp_second := single_of second;
     tp_tester := ex_tester;
     tp_properties :=
       list_to_map ((fun p => (p, tpp_of first second p)) <$> shared);
     tp_stat_messages := None |}.

(** The collection that [TestedPairsAndSingles] builds from the runs A and
    B with 10 observations each. *)
Definition collection_A10_B10 : TestedPairsAndSingles cache :=
  {| singles := [single_of run_A10; single_of run_B10];
     pairs := [pair_of run_A10 run_B10 ["time"]];
     c_stat_messages := None |}.

(** The statistics of one property of [run_C], as a message's parent. *)
Definition parent_C (property : string) : StatObject unit :=
  OSingleProperty
    {| sp_rundata := run_C;
       sp_data := default [] (run_data run_C !! property);
       sp_property := property; sp_stat_messages := tt |}.

(** The messages about the number of observations of "time" (3) and of
    "mem" (2) in [run_C], and their merge. *)
Definition msg_time : StatMessage :=
  {| msg_id := 0; cls := NotEnoughObservationsWarning;
     parent := parent_C "time"; properties := ["time"]; values := [3%Q] |}.

Definition msg_mem : StatMessage :=
  {| msg_id := 1; cls := NotEnoughObservationsWarning;
     parent := parent_C "mem"; properties := ["mem"]; values := [2%Q] |}.

Definition msg_merged : StatMessage :=
  {| msg_id := 2; cls := NotEnoughObservationsWarning;
     parent := parent_C "time"; properties := ["mem"; "time"];
     values := [3%Q; 2%Q] |}.

(** The two messages of the property statistics of [run_A10], the list
    that [get_stat_messages] returns for them, and the object afterwards. *)
Definition msg_A10 (a : nat) (c : MessageClass) : StatMessage :=
  {| msg_id := a; cls := c;
     parent := OSingleProperty (view_sp (sp_of run_A10 "time"));
     properties := ["time"]; values := [10%Q] |}.

Definition list_A10 : PyList :=
  {| list_id := 2;
     items := [msg_A10 0 NotEnoughObservationsWarning;
               msg_A10 1 NotEnoughObservationsError] |}.

Definition sp_A10_filled : SingleProperty cache :=
  {| sp_rundata := run_A10; sp_data := steady 10 100%Q;
     sp_property := "time"; sp_stat_messages := Some list_A10 |}.

(** Further merges of the two messages: (time + mem) + time, mem + time,
    and time + (mem + time). *)
Definition msg_left : StatMessage :=
  {| msg_id := 3; cls := NotEnoughObservationsWarning;
     parent := parent_C "time"; properties := ["mem"; "time"; "time"];
     values := [3%Q; 2%Q; 3%Q] |}.

Definition msg_mem_time : StatMessage :=
  {| msg_id := 4; cls := NotEnoughObservationsWarning;
     parent := parent_C "mem"; properties := ["mem"; "time"];
     values := [2%Q; 3%Q] |}.

Definition msg_right : StatMessage :=
  {| msg_id := 5; cls := NotEnoughObservationsWarning;
     parent := parent_C "time"; properties := ["mem"; "time"; "time"];
     values := [3%Q; 2%Q; 3%Q] |}.

(** ** Specification predicates *)

(** What the constructor promises of a message. *)
Definition message_invariant (m : StatMessage) : Prop :=
  properties m <> []
  /\ Sorted str_le (properties m)
  /\ length (values m) = length (properties m).

(** A message that the constructor or the merge operator returned. *)
Inductive produced (m : StatMessage) : Prop :=
| produced_init c p props vals σ σ' :
    StatMessage_init c p props vals σ = Ok (m, σ') -> produced m
| produced_add a b σ σ' :
    StatMessage_add a b σ = Ok (m, σ') -> produced m.

(** The pairs (property, value) that a message shows: [generate_msg_text]
    zips the two lists. *)
Definition pairing (m : StatMessage) : list (string * Q) :=
  zip (properties m) (values m).

(** The live messages lie below the allocation pointer. *)
Definition below (σ : nat) (msgs : list StatMessage) : Prop :=
  forall x, In x msgs -> msg_id x < σ.

(** The messages of a call that returned. *)
Definition returned_items {A} (r : outcome (PyList * A * nat))
    : option (list StatMessage) :=
  match r with
  | Ok (l, _, _) => Some (items l)
  | _ => None
  end.

(** A sample whose property statistics are those of its run. *)
Definition coherent (s : Single cache) : Prop :=
  s_stat_messages s = None
  /\ forall p sp, s_properties s !! p = Some sp ->
       is_Some (run_data (s_rundata s) !! p) /\ sp = sp_of (s_rundata s) p.

(** Two calls in a row on one object, and the lists they return. *)
Definition call_twice {A} (get_stat_messages : A -> M (PyList * A)) (self : A)
    : M (PyList * PyList) :=
  '(l1, self) ← get_stat_messages self;
  '(l2, _) ← get_stat_messages self;
  mret (l1, l2).

(** One round of the loop of [combine], for whichever mergeable pair the
    iteration over the set meets first and whatever the order of the set
    afterwards. *)
Inductive round (msgs : list StatMessage) (σ : nat)
    (msgs' : list StatMessage) (σ' : nat) : Prop :=
| round_intro a b m :
    In a msgs -> In b msgs -> mergeable a b = true ->
    StatMessage_add a b σ = Ok (m, σ') ->
    Permutation msgs' (set_add m (set_remove b (set_remove a msgs))) ->
    round msgs σ msgs' σ'.

(** [n] rounds in a row. *)
Inductive rounds : nat -> list StatMessage -> nat -> list StatMessage -> nat
                   -> Prop :=
| rounds_O msgs σ : rounds 0 msgs σ msgs σ
| rounds_S n msgs σ msgs1 σ1 msgs' σ' :
    round msgs σ msgs1 σ1 -> rounds n msgs1 σ1 msgs' σ' ->
    rounds (S n) msgs σ msgs' σ'.

(** The properties, and the values, that the messages of a list show, each
    with the class of its message. *)
Definition shown_properties (msgs : list StatMessage)
    : list (MessageClass * string) :=
  flat_map (fun m => List.map (pair (cls m)) (properties m)) msgs.

Definition shown_values (msgs : list StatMessage) : list (MessageClass * Q) :=
  flat_map (fun m => List.map (pair (cls m)) (values m)) msgs.

(** The comparison of the property [p] between the runs [r1] and [r2], as
    [TestedPairProperty.__init__] builds it. *)
Definition comparison_of (r1 r2 : RunData) (p : string) (tester : Tester)
    : TestedPairProperty cache :=
  {| tpp_first := sp_of r1 p; tpp_second := sp_of r2 p;
     tpp_tester := tester; tpp_property := p; tpp_stat_messages := None |}.

(** The messages that a row of [create_if_valid] calls creates for one
    parent and one property, given the class and the value of each call
    and the first free identity. *)
Fixpoint created (me : StatObject unit) (p : string)
    (cs : list (MessageClass * Q)) (σ : nat) : list StatMessage :=
  match cs with
  | [] => []
  | (c, v) :: cs =>
      if check_value c v then created me p cs σ
      else {| msg_id := σ; cls := c; parent := me; properties := [p];
              values := [v] |} :: created me p cs (S σ)
  end.

(** The checks of [SingleProperty._get_stat_messages]. *)
Definition SingleProperty_checks {L} (np_sqrt : Q -> Q) (sp : SingleProperty L)
    : list (MessageClass * Q) :=
  [(StdDeviationToHighWarning, std_dev_per_mean np_sqrt sp);
   (StdDeviationToHighError, std_dev_per_mean np_sqrt sp);
   (NotEnoughObservationsWarning, of_int (observations sp));
   (NotEnoughObservationsError, of_int (observations sp))].

(** Each error class with the advisory class it extends. *)
Definition advisory_of (c : MessageClass) : option MessageClass :=
  match type_of c with
  | Some ERROR => base_class c
  | _ => None
  end.

(** The checks of [TestedPairProperty._get_stat_messages]. *)
Definition TestedPairProperty_checks {L} (tpp : TestedPairProperty L)
    : list (MessageClass * Q) :=
  [(EffectToSmallWarning, mean_diff_per_dev tpp);
   (EffectToSmallError, mean_diff_per_dev tpp)].


(** * Properties *)

(** ** The monad *)

Lemma bind_Ok {A B} (m : M A) (f : A -> M B) σ b σ' :
  (m ≫= f) σ = Ok (b, σ') ->
  exists a σ1, m σ = Ok (a, σ1) /\ f a σ1 = Ok (b, σ').
Proof.
  unfold mbind, M_bind. destruct (m σ) as [[a σ1]| |]; try discriminate.
  eauto.
Qed.

Lemma typecheck_Ok c σ u σ' : typecheck c σ = Ok (u, σ') -> c = true /\ σ' = σ.
Proof. destruct c; cbv; intros; split; congruence. Qed.

Lemma assert_Ok c σ u σ' : assert c σ = Ok (u, σ') -> c = true /\ σ' = σ.
Proof. destruct c; cbv; intros; split; congruence. Qed.

(** ** [sorted] *)

Lemma insert_sorted_perm x l : Permutation (x :: l) (insert_sorted x l).
Proof.
  induction l as [|y l IH]; simpl; [done|].
  destruct (String.leb x y); [done|].
  rewrite perm_swap. by constructor.
Qed.

Lemma sorted_perm l : Permutation l (sorted l).
Proof.
  induction l as [|x l IH]; simpl; [done|].
  rewrite <- insert_sorted_perm. by constructor.
Qed.

Lemma sorted_length l : length (sorted l) = length l.
Proof. symmetry. apply Permutation_length, sorted_perm. Qed.

Lemma insert_sorted_HdRel a x l :
  str_le a x -> HdRel str_le a l -> HdRel str_le a (insert_sorted x l).
Proof.
  intros Hax Hl. destruct l as [|y l]; simpl; [by constructor|].
  destruct (String.leb x y); constructor; [done|].
  by inversion Hl.
Qed.

Lemma insert_sorted_Sorted x l :
  Sorted str_le l -> Sorted str_le (insert_sorted x l).
Proof.
  induction 1 as [|y l Hl IH Hhd]; simpl; [by repeat constructor|].
  destruct (String.leb x y) eqn:E.
  - constructor; [by constructor|]. by constructor.
  - constructor; [done|]. apply insert_sorted_HdRel; [|done].
    destruct (String.leb_total x y) as [H|H]; [congruence|done].
Qed.

Lemma sorted_Sorted l : Sorted str_le (sorted l).
Proof.
  induction l as [|x l IH]; simpl; [constructor|].
  by apply insert_sorted_Sorted.
Qed.

(** ** The constructor and the merge operator *)

Lemma StatMessage_init_Ok c p props vals σ m σ' :
  StatMessage_init c p props vals σ = Ok (m, σ') ->
  let ps := match props with inl l => l | inr s => [s] end in
  let vs := match vals with inl l => l | inr v => [v] end in
  0 < length ps /\ length vs = length ps /\ σ' = S σ /\
  m = {| msg_id := σ; cls := c; parent := p;
         properties := sorted ps; values := vs |}.
Proof.
  unfold StatMessage_init. intros H.
  apply bind_Ok in H as (? & σ1 & H1 & H).
  apply typecheck_Ok in H1 as [H1 ->].
  apply bind_Ok in H as (? & σ2 & H2 & H).
  apply typecheck_Ok in H2 as [H2 ->].
  apply bool_decide_eq_true in H1, H2.
  cbv [mbind M_bind alloc mret M_ret] in H.
  injection H as <- <-. done.
Qed.

Lemma StatMessage_add_Ok a b σ m σ' :
  StatMessage_add a b σ = Ok (m, σ') ->
  issubclass (cls b) (cls a) = true
  /\ eq_except_property (parent a) (parent b) = true /\
  σ' = S σ /\
  m = {| msg_id := σ; cls := cls a; parent := parent a;
         properties := sorted (properties a ++ properties b);
         values := values a ++ values b |}.
Proof.
  unfold StatMessage_add. intros H.
  apply bind_Ok in H as (? & σ1 & H1 & H).
  apply typecheck_Ok in H1 as [H1 ->].
  apply bind_Ok in H as (? & σ2 & H2 & H).
  apply assert_Ok in H2 as [H2 ->].
  apply StatMessage_init_Ok in H as (_ & _ & -> & ->).
  done.
Qed.

Lemma issubclass_refl c : issubclass c c = true.
Proof. unfold issubclass. simpl. by rewrite bool_decide_eq_true_2. Qed.

(** The merge of two messages that satisfy the invariant, are of the same
    class and have compatible parents returns. *)
Lemma StatMessage_add_total a b σ :
  message_invariant a -> message_invariant b ->
  cls b = cls a -> eq_except_property (parent a) (parent b) = true ->
  exists m, StatMessage_add a b σ = Ok (m, S σ).
Proof.
  intros (Ha & _ & Hla) (_ & _ & Hlb) Hc He.
  unfold StatMessage_add, T. rewrite Hc, issubclass_refl.
  cbn. rewrite He. cbn.
  unfold StatMessage_init.
  assert (0 < length (properties a ++ properties b)) as H1.
  { rewrite length_app. destruct (properties a); [done|simpl; lia]. }
  assert (length (values a ++ values b)
          = length (properties a ++ properties b)) as H2.
  { rewrite !length_app. lia. }
  rewrite (bool_decide_eq_true_2 _ H1), (bool_decide_eq_true_2 _ H2).
  cbn. eauto.
Qed.

Lemma StatMessage_init_invariant c p props vals σ m σ' :
  StatMessage_init c p props vals σ = Ok (m, σ') -> message_invariant m.
Proof.
  intros H. apply StatMessage_init_Ok in H as (Hlen & Hvals & _ & ->).
  repeat split; simpl.
  - intros E. apply (f_equal length) in E.
    rewrite sorted_length in E. simpl in E. lia.
  - apply sorted_Sorted.
  - by rewrite sorted_length.
Qed.

Lemma StatMessage_add_invariant a b σ m σ' :
  StatMessage_add a b σ = Ok (m, σ') -> message_invariant m.
Proof.
  unfold StatMessage_add. intros H.
  apply bind_Ok in H as (? & σ1 & _ & H).
  apply bind_Ok in H as (? & σ2 & _ & H).
  by apply StatMessage_init_invariant in H.
Qed.

(** C10: every message returned by the constructor or by the merge operator
    has a non-empty, sorted property list and a value list of the same
    length. *)
Theorem produced_message_invariant (m : StatMessage) :
  produced m -> message_invariant m.
Proof.
  intros [c p props vals σ σ' H | a b σ σ' H].
  - by apply StatMessage_init_invariant in H.
  - by apply StatMessage_add_invariant in H.
Qed.

(** ** Sets of messages *)

Lemma same_object_true a b : same_object a b = true <-> msg_id a = msg_id b.
Proof. apply Nat.eqb_eq. Qed.

Lemma same_object_false a b : same_object a b = false <-> msg_id a <> msg_id b.
Proof. apply Nat.eqb_neq. Qed.

Lemma set_remove_In x m s :
  In x (set_remove m s) <-> In x s /\ msg_id x <> msg_id m.
Proof.
  unfold set_remove. rewrite filter_In, negb_true_iff, same_object_false. done.
Qed.

Lemma set_remove_length m s : length (set_remove m s) <= length s.
Proof. apply List.filter_length_le. Qed.

Lemma set_remove_length_lt m s :
  In m s -> length (set_remove m s) < length s.
Proof.
  induction s as [|x s IH]; simpl; [done|].
  intros [->|Hin].
  - replace (same_object m m) with true
      by (symmetry; by apply same_object_true).
    simpl. pose proof (set_remove_length m s). unfold set_remove in *. lia.
  - specialize (IH Hin). unfold set_remove in *.
    destruct (negb (same_object x m)); simpl; lia.
Qed.

Lemma set_remove_ids m s :
  NoDup (msg_id <$> s) -> NoDup (msg_id <$> set_remove m s).
Proof.
  induction s as [|x s IH]; simpl; [done|].
  rewrite NoDup_cons. intros [Hx Hs].
  destruct (negb (same_object x m)); simpl; [|by auto].
  apply NoDup_cons. split; [|by auto].
  intros Hin. apply Hx.
  apply list_elem_of_fmap in Hin as (y & Hy & Hin).
  apply list_elem_of_fmap. exists y. split; [done|].
  apply list_elem_of_In. apply list_elem_of_In in Hin.
  by apply set_remove_In in Hin as [? _].
Qed.

Lemma set_remove_exact m s :
  NoDup (msg_id <$> s) -> In m s -> S (length (set_remove m s)) = length s.
Proof.
  induction s as [|x s IH]; simpl; [done|].
  rewrite NoDup_cons. intros [Hx Hs] [->|Hin].
  - replace (same_object m m) with true
      by (symmetry; by apply same_object_true).
    simpl. f_equal. unfold set_remove.
    rewrite forallb_filter_id; [done|].
    apply forallb_forall. intros y Hy.
    apply negb_true_iff, same_object_false. intros E. apply Hx.
    rewrite <- E. apply list_elem_of_fmap. exists y. split; [done|].
    by apply list_elem_of_In.
  - destruct (same_object x m) eqn:E; simpl.
    + exfalso. apply Hx. apply same_object_true in E. rewrite E.
      apply list_elem_of_fmap. exists m. split; [done|].
      by apply list_elem_of_In.
    + f_equal. by apply IH.
Qed.

Lemma set_add_fresh m s :
  (forall x, In x s -> msg_id x <> msg_id m) -> set_add m s = s ++ [m].
Proof.
  induction s as [|x s IH]; simpl; [done|]. intros H.
  replace (same_object x m) with false
    by (symmetry; apply same_object_false, H; by left).
  f_equal. apply IH. intros y Hy. apply H. by right.
Qed.

Lemma set_add_length m s : length (set_add m s) <= S (length s).
Proof.
  induction s as [|x s IH]; simpl; [done|].
  destruct (same_object x m); simpl; lia.
Qed.

Lemma set_add_In x m s : In x (set_add m s) -> x = m \/ In x s.
Proof.
  induction s as [|y s IH]; simpl.
  - intros [->|[]]. by left.
  - destruct (same_object y m); simpl; [by right|].
    intros [->|H]; [by right; left|]. destruct (IH H); auto.
Qed.

Lemma set_add_ids m s :
  NoDup (msg_id <$> s) -> NoDup (msg_id <$> set_add m s).
Proof.
  induction s as [|x s IH]; simpl.
  - intros _. apply NoDup_singleton.
  - destruct (same_object x m) eqn:E; simpl; [done|].
    rewrite !NoDup_cons. intros [Hx Hs]. split; [|by auto].
    intros Hin. apply list_elem_of_fmap in Hin as (y & Hy & Hin).
    apply list_elem_of_In, set_add_In in Hin as [->|Hin].
    + apply same_object_false in E. congruence.
    + apply Hx. apply list_elem_of_fmap. exists y. split; [done|].
      by apply list_elem_of_In.
Qed.

Lemma py_set_acc_ids l acc :
  NoDup (msg_id <$> acc) ->
  NoDup (msg_id <$> foldl (fun s m => set_add m s) acc l).
Proof.
  revert acc. induction l as [|m l IH]; simpl; [done|].
  intros acc H. by apply IH, set_add_ids.
Qed.

Lemma py_set_acc_In l acc x :
  In x (foldl (fun s m => set_add m s) acc l) -> In x acc \/ In x l.
Proof.
  revert acc. induction l as [|m l IH]; simpl; [by left|].
  intros acc H. apply IH in H as [H|H]; [|by right; right].
  apply set_add_In in H as [->|H]; [right; by left|by left].
Qed.

Lemma py_set_ids l : NoDup (msg_id <$> py_set l).
Proof. apply py_set_acc_ids. constructor. Qed.

Lemma py_set_In l x : In x (py_set l) -> In x l.
Proof. intros H. by apply py_set_acc_In in H as [[]|H]. Qed.

(** A list of distinct objects is its own set. *)
Lemma py_set_acc_NoDup l acc :
  NoDup (msg_id <$> (acc ++ l)) ->
  foldl (fun s m => set_add m s) acc l = acc ++ l.
Proof.
  revert acc. induction l as [|m l IH]; simpl; intros acc H.
  - by rewrite app_nil_r.
  - replace (acc ++ m :: l) with ((acc ++ [m]) ++ l) in *
      by (by rewrite <- app_assoc).
    rewrite set_add_fresh; [by apply IH|].
    intros x Hx E.
    rewrite !fmap_app in H. apply NoDup_app in H as [H _].
    apply NoDup_app in H as (_ & H & _).
    apply (H (msg_id x)).
    + apply list_elem_of_fmap. exists x. split; [done|]. by apply list_elem_of_In.
    + rewrite E. simpl. apply list_elem_of_here.
Qed.

Lemma py_set_NoDup l : NoDup (msg_id <$> l) -> py_set l = l.
Proof. intros H. by apply (py_set_acc_NoDup (acc := [])). Qed.

Lemma omap_id_Some {A} (l : list A) : omap id (Some <$> l) = l.
Proof. induction l as [|x l IH]; csimpl; [done|]. by f_equal. Qed.

(** ** The search for a pair *)

Lemma find_mergeable_Some msgs a b :
  find_mergeable msgs = Some (a, b) ->
  In a msgs /\ In b msgs /\ mergeable a b = true.
Proof.
  unfold find_mergeable. intros H. apply find_some in H as [Hin Hm].
  apply in_prod_iff in Hin as [? ?]. done.
Qed.

Lemma find_mergeable_None msgs a b :
  find_mergeable msgs = None -> In a msgs -> In b msgs -> mergeable a b = false.
Proof.
  unfold find_mergeable. intros H Ha Hb.
  apply (find_none _ _ H (a, b)). by apply in_prod.
Qed.

Lemma mergeable_true a b :
  mergeable a b = true <->
  msg_id a <> msg_id b /\ eq_except_property (parent a) (parent b) = true
  /\ cls a = cls b.
Proof.
  unfold mergeable.
  rewrite !andb_true_iff, negb_true_iff, same_object_false, bool_decide_eq_true.
  done.
Qed.

(** ** One round of the loop *)

Lemma StatMessage_add_not_exhausted a b σ : StatMessage_add a b σ <> Exhausted.
Proof.
  unfold StatMessage_add, StatMessage_init, typecheck, assert, raise, alloc.
  unfold mbind, M_bind, mret, M_ret.
  repeat case_match; congruence.
Qed.

Lemma merge_pair_not_exhausted msgs p σ : merge_pair msgs p σ <> Exhausted.
Proof.
  unfold merge_pair. unfold mbind, M_bind at 1.
  pose proof (@StatMessage_add_not_exhausted p.1 p.2 σ).
  destruct (StatMessage_add p.1 p.2 σ) as [[m σ1]| |]; done.
Qed.

Lemma merge_pair_Ok msgs a b σ msgs' σ' :
  merge_pair msgs (a, b) σ = Ok (msgs', σ') ->
  exists m, StatMessage_add a b σ = Ok (m, σ')
            /\ msgs' = set_add m (set_remove b (set_remove a msgs)).
Proof.
  unfold merge_pair. intros H. apply bind_Ok in H as (m & σ1 & Hm & H).
  injection H as <- <-. eauto.
Qed.

(** A round leaves fewer messages than it found. *)
Lemma merge_pair_shrinks msgs p σ msgs' σ' :
  find_mergeable msgs = Some p ->
  merge_pair msgs p σ = Ok (msgs', σ') ->
  length msgs' < length msgs.
Proof.
  destruct p as [a b]. intros Hf H.
  apply find_mergeable_Some in Hf as (Ha & Hb & Hm).
  apply mergeable_true in Hm as (Hne & _).
  apply merge_pair_Ok in H as (m & _ & ->).
  pose proof (@set_add_length m (set_remove b (set_remove a msgs))).
  pose proof (set_remove_length_lt Ha).
  assert (In b (set_remove a msgs)) as Hb'
    by (apply set_remove_In; split; [done|congruence]).
  pose proof (set_remove_length_lt Hb'). lia.
Qed.

(** The set after the merge of two of its members into a new object. *)
Lemma merged_set_exact msgs a b m σ σ' :
  NoDup (msg_id <$> msgs) -> below σ msgs ->
  In a msgs -> In b msgs -> mergeable a b = true ->
  StatMessage_add a b σ = Ok (m, σ') ->
  S (length (set_add m (set_remove b (set_remove a msgs)))) = length msgs
  /\ NoDup (msg_id <$> set_add m (set_remove b (set_remove a msgs)))
  /\ below σ' (set_add m (set_remove b (set_remove a msgs))).
Proof.
  intros Hnd Hlt Ha Hb Hm Hadd.
  apply mergeable_true in Hm as (Hne & _).
  apply StatMessage_add_Ok in Hadd as (_ & _ & -> & Em).
  assert (msg_id m = σ) as Eid by (by rewrite Em).
  assert (In b (set_remove a msgs)) as Hb'
    by (apply set_remove_In; split; [done|congruence]).
  assert (forall x, In x (set_remove b (set_remove a msgs)) -> In x msgs) as Hsub.
  { intros x Hx. apply set_remove_In in Hx as [Hx _].
    by apply set_remove_In in Hx as [Hx _]. }
  rewrite set_add_fresh; cycle 1.
  { intros x Hx. apply Hsub, Hlt in Hx. lia. }
  repeat split.
  - rewrite length_app. simpl.
    pose proof (set_remove_exact Hnd Ha).
    pose proof (set_remove_exact (set_remove_ids a Hnd) Hb'). lia.
  - rewrite fmap_app. apply NoDup_app. repeat split.
    + by apply set_remove_ids, set_remove_ids.
    + intros i Hi Hi'. apply list_elem_of_fmap in Hi as (x & -> & Hx).
      apply list_elem_of_In, Hsub, Hlt in Hx.
      simpl in Hi'. apply list_elem_of_singleton in Hi'. lia.
    + simpl. apply NoDup_singleton.
  - intros x Hx. apply in_app_or in Hx as [Hx|[<-|[]]].
    + apply Hsub, Hlt in Hx. lia.
    + lia.
Qed.

(** On a set whose members are live, a round removes two messages and adds
    one new object. *)
Lemma merge_pair_exact msgs p σ msgs' σ' :
  NoDup (msg_id <$> msgs) -> below σ msgs ->
  find_mergeable msgs = Some p ->
  merge_pair msgs p σ = Ok (msgs', σ') ->
  S (length msgs') = length msgs
  /\ NoDup (msg_id <$> msgs') /\ below σ' msgs'.
Proof.
  destruct p as [a b]. intros Hnd Hlt Hf H.
  apply find_mergeable_Some in Hf as (Ha & Hb & Hm).
  apply merge_pair_Ok in H as (m & Hadd & ->).
  by apply (merged_set_exact Hnd Hlt Ha Hb Hm Hadd).
Qed.

(** The round of the function is a round of the loop, and a round of the
    loop, whichever pair the iteration over the set meets first, leaves one
    message less. *)
Lemma merge_pair_round msgs p σ msgs' σ' :
  find_mergeable msgs = Some p ->
  merge_pair msgs p σ = Ok (msgs', σ') ->
  round msgs σ msgs' σ'.
Proof.
  destruct p as [a b]. intros Hf H.
  apply find_mergeable_Some in Hf as (Ha & Hb & Hm).
  apply merge_pair_Ok in H as (m & Hadd & ->).
  by apply (@round_intro _ _ _ _ a b m).
Qed.

Lemma round_exact msgs σ msgs' σ' :
  NoDup (msg_id <$> msgs) -> below σ msgs ->
  round msgs σ msgs' σ' ->
  S (length msgs') = length msgs
  /\ NoDup (msg_id <$> msgs') /\ below σ' msgs'.
Proof.
  intros Hnd Hlt [a b m Ha Hb Hm Hadd Hperm].
  destruct (merged_set_exact Hnd Hlt Ha Hb Hm Hadd) as (Hlen & Hnd' & Hlt').
  repeat split.
  - by rewrite (Permutation_length Hperm).
  - by rewrite Hperm.
  - intros x Hx. apply Hlt'. by apply (Permutation_in _ Hperm).
Qed.

Lemma rounds_exact n msgs σ msgs' σ' :
  NoDup (msg_id <$> msgs) -> below σ msgs ->
  rounds n msgs σ msgs' σ' ->
  n + length msgs' = length msgs.
Proof.
  intros Hnd Hlt H. induction H as [|n msgs σ msgs1 σ1 msgs' σ' H1 _ IH];
    [done|].
  destruct (round_exact Hnd Hlt H1) as (Hlen & Hnd1 & Hlt1).
  specialize (IH Hnd1 Hlt1). lia.
Qed.

(** ** The loop *)

Lemma find_mergeable_nil : find_mergeable [] = None.
Proof. done. Qed.

Lemma combine_loop_not_exhausted fuel msgs σ :
  length msgs <= fuel -> combine_loop fuel msgs σ <> Exhausted.
Proof.
  revert msgs σ. induction fuel as [|fuel IH]; intros msgs σ Hlen; simpl.
  - destruct msgs; [|simpl in Hlen; lia]. by rewrite find_mergeable_nil.
  - destruct (find_mergeable msgs) as [p|] eqn:Hf; [|done].
    unfold mbind, M_bind.
    pose proof (@merge_pair_not_exhausted msgs p σ) as Hne.
    destruct (merge_pair msgs p σ) as [[msgs' σ']| |] eqn:Hm; [|done..].
    apply IH. pose proof (merge_pair_shrinks Hf Hm). lia.
Qed.

(** When no pair is mergeable the loop returns its set at once. *)
Lemma combine_loop_fixed fuel msgs σ :
  find_mergeable msgs = None -> combine_loop fuel msgs σ = Ok (msgs, σ).
Proof. intros H. destruct fuel; simpl; by rewrite H. Qed.

Lemma combine_loop_Ok fuel msgs σ out σ' :
  NoDup (msg_id <$> msgs) -> below σ msgs ->
  combine_loop fuel msgs σ = Ok (out, σ') ->
  find_mergeable out = None /\ NoDup (msg_id <$> out) /\ below σ' out.
Proof.
  revert msgs σ. induction fuel as [|fuel IH]; intros msgs σ Hnd Hlt; simpl.
  - destruct (find_mergeable msgs) eqn:Hf; [done|].
    intros [= <- <-]. done.
  - destruct (find_mergeable msgs) as [p|] eqn:Hf.
    + intros H. apply bind_Ok in H as (msgs' & σ1 & Hm & H).
      destruct (merge_pair_exact Hnd Hlt Hf Hm) as (_ & Hnd' & Hlt').
      by apply (IH msgs' σ1).
    + intros [= <- <-]. done.
Qed.

Lemma combine_Ok messages σ l σ' :
  combine messages σ = Ok (l, σ') ->
  exists σ1, combine_loop (length (py_set (omap id messages)))
               (py_set (omap id messages)) σ = Ok (items l, σ1)
             /\ list_id l = σ1 /\ σ' = S σ1.
Proof.
  unfold combine. intros H. apply bind_Ok in H as (out & σ1 & Hl & H).
  cbv [mbind M_bind alloc mret M_ret] in H. injection H as <- <-.
  exists σ1. done.
Qed.

(** C3: [combine] terminates on every list of optional messages: the loop
    is never out of fuel, because a round that merges leaves fewer messages
    in the set; on a set of live objects it leaves exactly one message
    less. *)
Theorem combine_terminates :
  (forall messages σ, combine messages σ <> Exhausted)
  /\ (forall msgs p σ msgs' σ',
        find_mergeable msgs = Some p ->
        merge_pair msgs p σ = Ok (msgs', σ') ->
        length msgs' < length msgs)
  /\ (forall msgs p σ msgs' σ',
        NoDup (msg_id <$> msgs) -> below σ msgs ->
        find_mergeable msgs = Some p ->
        merge_pair msgs p σ = Ok (msgs', σ') ->
        S (length msgs') = length msgs).
Proof.
  split; [|split].
  - intros messages σ. unfold combine, mbind, M_bind.
    pose proof (@combine_loop_not_exhausted
                  (length (py_set (omap id messages)))
                  (py_set (omap id messages)) σ (le_n _)) as H.
    destruct (combine_loop _ _ σ) as [[out σ1]| |]; done.
  - intros msgs p σ msgs' σ' Hf Hm. by apply (merge_pair_shrinks Hf Hm).
  - intros msgs p σ msgs' σ' Hnd Hlt Hf Hm.
    by destruct (merge_pair_exact Hnd Hlt Hf Hm).
Qed.

(** C2: the result of [combine] has no two messages of the same class whose
    parents are equal except for the property, and [combine] applied to it
    returns the same messages. *)
Theorem combine_idempotent messages σ l σ' :
  below σ (omap id messages) ->
  combine messages σ = Ok (l, σ') ->
  (forall a b, In a (items l) -> In b (items l) -> msg_id a <> msg_id b ->
     ~ (cls a = cls b /\ eq_except_property (parent a) (parent b) = true))
  /\ exists l2 σ2, combine (Some <$> items l) σ' = Ok (l2, σ2)
                   /\ Permutation (items l2) (items l).
Proof.
  intros Hlt H. apply combine_Ok in H as (σ1 & Hloop & _ & ->).
  apply combine_loop_Ok in Hloop as (Hfix & Hnd & _).
  2: apply py_set_ids.
  2: { intros x Hx. by apply Hlt, py_set_In. }
  split.
  - intros a b Ha Hb Hne [Hc He].
    pose proof (find_mergeable_None Hfix Ha Hb) as Hm.
    assert (mergeable a b = true) by (by apply mergeable_true).
    congruence.
  - exists {| list_id := S σ1; items := items l |}, (S (S σ1)).
    split; [|done].
    unfold combine. rewrite omap_id_Some, (py_set_NoDup Hnd).
    unfold mbind, M_bind. by rewrite (combine_loop_fixed _ _ Hfix).
Qed.

(** On messages that satisfy the constructor's invariant no round raises:
    [combine] returns a list. *)
Lemma combine_loop_returns fuel msgs σ :
  length msgs <= fuel ->
  (forall x, In x msgs -> message_invariant x) ->
  exists out σ', combine_loop fuel msgs σ = Ok (out, σ').
Proof.
  revert msgs σ. induction fuel as [|fuel IH]; intros msgs σ Hlen Hinv; simpl.
  - destruct msgs; [|simpl in Hlen; lia]. rewrite find_mergeable_nil. eauto.
  - destruct (find_mergeable msgs) as [[a b]|] eqn:Hf; [|by eauto].
    pose proof Hf as Hf'.
    apply find_mergeable_Some in Hf' as (Ha & Hb & Hm).
    apply mergeable_true in Hm as (_ & He & Hc).
    destruct (@StatMessage_add_total a b σ (Hinv _ Ha) (Hinv _ Hb)
                (eq_sym Hc) He) as [m Hadd].
    assert (merge_pair msgs (a, b) σ
            = Ok (set_add m (set_remove b (set_remove a msgs)), S σ)) as Hm.
    { unfold merge_pair, mbind, M_bind. simpl. by rewrite Hadd. }
    unfold mbind, M_bind. rewrite Hm. apply IH.
    + pose proof (merge_pair_shrinks Hf Hm). lia.
    + intros x Hx. apply set_add_In in Hx as [->|Hx].
      * by apply StatMessage_add_invariant in Hadd.
      * apply set_remove_In in Hx as [Hx _].
        apply set_remove_In in Hx as [Hx _]. by apply Hinv.
Qed.

Lemma combine_returns messages σ :
  (forall x, In x (omap id messages) -> message_invariant x) ->
  exists l σ', combine messages σ = Ok (l, σ').
Proof.
  intros Hinv.
  destruct (@combine_loop_returns (length (py_set (omap id messages)))
              (py_set (omap id messages)) σ (le_n _)) as (out & σ1 & H).
  { intros x Hx. by apply Hinv, py_set_In. }
  unfold combine, mbind, M_bind. rewrite H. cbn. eauto.
Qed.

(** ** The merge operator and the pairing of properties with values *)

(** What the merge operator returns: the properties are sorted, the values
    are not moved. *)
Lemma StatMessage_add_lists a b σ m σ' :
  StatMessage_add a b σ = Ok (m, σ') ->
  properties m = sorted (properties a ++ properties b)
  /\ values m = values a ++ values b.
Proof. intros H. by apply StatMessage_add_Ok in H as (_ & _ & _ & ->). Qed.

(** C1: [NotEnoughObservationsWarning(p, "time", 3)
        + NotEnoughObservationsWarning(p', "mem", 2)], for the two
    properties of the run C, has the properties ["mem"; "time"] and the
    values [3; 2]: it shows "mem" with the value of "time" and "time" with
    the value of "mem". *)
Theorem add_pairing_time_mem :
  StatMessage_init NotEnoughObservationsWarning (parent_C "time")
    (inr "time") (inr 3%Q) 0 = Ok (msg_time, 1)
  /\ StatMessage_init NotEnoughObservationsWarning (parent_C "mem")
       (inr "mem") (inr 2%Q) 1 = Ok (msg_mem, 2)
  /\ StatMessage_add msg_time msg_mem 2 = Ok (msg_merged, 3)
  /\ pairing msg_time = [("time", 3%Q)]
  /\ pairing msg_mem = [("mem", 2%Q)]
  /\ pairing msg_merged = [("mem", 3%Q); ("time", 2%Q)].
Proof. repeat split; vm_compute; reflexivity. Qed.

(** ** Construction of the stat objects *)

Lemma outcome_bind_Ok {A B} (m : outcome A) (f : A -> outcome B) b :
  m ≫= f = Ok b -> exists a, m = Ok a /\ f a = Ok b.
Proof. destruct m; simpl; [eauto|done..]. Qed.

Section Dictionaries.

Context {V : Type} (g : string -> outcome V).

(** The loop [for prop in props: d[prop] = g(prop)]. *)
Local Abbreviation fill :=
  (fun (d : gmap string V) (prop : string) => v ← g prop; mret (<[prop := v]> d)).

Lemma fill_loop_Ok props d0 d :
  foldM fill d0 props = Ok d ->
  (forall p, p ∈ props -> exists v, g p = Ok v /\ d !! p = Some v)
  /\ (forall p, p ∉ props -> d !! p = d0 !! p).
Proof.
  revert d0. induction props as [|x props IH]; simpl; intros d0 H.
  - injection H as <-. split; [|done]. intros p Hp. by apply elem_of_nil in Hp.
  - apply outcome_bind_Ok in H as (d1 & H1 & H).
    apply outcome_bind_Ok in H1 as (v & Hg & H1). injection H1 as <-.
    destruct (IH _ H) as [IH1 IH2]. split.
    + intros p Hp. apply elem_of_cons in Hp as [->|Hp]; [|by apply IH1].
      destruct (decide (x ∈ props)) as [Hx|Hx].
      * by apply IH1.
      * exists v. split; [done|]. by rewrite IH2, lookup_insert_eq.
    + intros p Hp. apply not_elem_of_cons in Hp as [Hne Hp].
      rewrite IH2 by done. by apply lookup_insert_ne.
Qed.

Lemma fill_loop_total props d0 :
  (forall p, p ∈ props -> exists v, g p = Ok v) ->
  exists d, foldM fill d0 props = Ok d.
Proof.
  revert d0. induction props as [|x props IH]; simpl; intros d0 H.
  - by eexists.
  - destruct (H x) as [v Hv]; [by left|].
    destruct (IH (<[x := v]> d0)) as [d Hd].
    { intros p Hp. apply H. by right. }
    exists d. rewrite Hv. simpl. done.
Qed.

End Dictionaries.

Lemma elem_of_keys {V} (d : gmap string V) p : p ∈ keys d <-> is_Some (d !! p).
Proof.
  unfold keys. rewrite list_elem_of_fmap. split.
  - intros ([k v] & -> & H). apply elem_of_map_to_list in H. by eexists.
  - intros [v H]. exists (p, v). split; [done|]. by apply elem_of_map_to_list.
Qed.

Lemma SingleProperty_init_run r p sp :
  SingleProperty_init (inl r) p = Ok sp <->
  is_Some (run_data r !! p) /\ sp = sp_of r p.
Proof.
  unfold SingleProperty_init, run_getitem, sp_of.
  destruct (run_data r !! p) as [d|]; simpl; split.
  - intros [= <-]. eauto.
  - by intros [_ ->].
  - done.
  - by intros [[? ?] _].
Qed.

Lemma Single_init_coherent data s : Single_init data = Ok s -> coherent s.
Proof.
  unfold Single_init. intros H.
  apply outcome_bind_Ok in H as (d & H & Hs). injection Hs as <-.
  apply fill_loop_Ok in H as [H1 H2]. split; [done|]. simpl.
  intros p sp Hp.
  match type of H1 with forall p, p ∈ ?l -> _ =>
    destruct (decide (p ∈ l)) as [Hin|Hin] end.
  - destruct (H1 _ Hin) as (v & Hv & Hd).
    apply SingleProperty_init_run in Hv as [? ->]. split; [done|congruence].
  - rewrite H2 in Hp by done. by rewrite lookup_empty in Hp.
Qed.

(** [Single(s)] of a coherent sample is an equal sample. *)
Lemma Single_init_fixed s : coherent s -> Single_init (inr s) = Ok s.
Proof.
  intros [Hc Hcoh]. unfold Single_init.
  destruct (@fill_loop_total _
    (fun prop => SingleProperty_init (inl (s_rundata s)) prop)
    (keys (s_properties s)) ∅) as [d Hd].
  { intros p Hp. apply elem_of_keys in Hp as [sp Hp].
    destruct (Hcoh _ _ Hp) as [Hr ->].
    exists (sp_of (s_rundata s) p). by apply SingleProperty_init_run. }
  rewrite Hd. simpl.
  assert (d = s_properties s) as ->.
  { apply fill_loop_Ok in Hd as [H1 H2]. apply map_eq. intros p.
    destruct (s_properties s !! p) as [sp|] eqn:Hp.
    - destruct (H1 p) as (v & Hv & ->); [apply elem_of_keys; by eexists|].
      destruct (Hcoh _ _ Hp) as [Hr ->].
      apply SingleProperty_init_run in Hv as [_ ->]. done.
    - rewrite H2, lookup_empty; [done|].
      rewrite elem_of_keys, Hp. by intros [? ?]. }
  destruct s; simpl in *. by subst.
Qed.

Lemma TestedPairProperty_init_Ok t f s p tester tpp :
  TestedPairProperty_init t f s p tester = Ok tpp <->
  is_Some (run_data (s_rundata f) !! p)
  /\ is_Some (run_data (s_rundata s) !! p)
  /\ tpp = {| tpp_first := sp_of (s_rundata f) p;
              tpp_second := sp_of (s_rundata s) p;
              tpp_tester := tester_or_default t tester;
              tpp_property := p; tpp_stat_messages := None |}.
Proof.
  unfold TestedPairProperty_init. split.
  - intros H. apply outcome_bind_Ok in H as (x & Hx & H).
    apply outcome_bind_Ok in H as (y & Hy & H). injection H as <-.
    apply SingleProperty_init_run in Hx as [? ->].
    apply SingleProperty_init_run in Hy as [? ->]. done.
  - intros ([d1 H1] & [d2 H2] & ->).
    unfold SingleProperty_init, run_getitem, sp_of. by rewrite H1, H2.
Qed.

Lemma TestedPair_init_Ok t first second tester self :
  TestedPair_init t first second tester = Ok self ->
  exists f s,
    Single_init first = Ok f /\ Single_init second = Ok s
    /\ tp_first self = f /\ tp_second self = s
    /\ tp_tester self = tester_or_default t tester
    /\ (forall p, p ∈ dom (s_properties f) ∩ dom (s_properties s) ->
          exists tpp, TestedPairProperty_init t f s p tester = Ok tpp
                      /\ tp_properties self !! p = Some tpp)
    /\ (forall p, p ∉ dom (s_properties f) ∩ dom (s_properties s) ->
          tp_properties self !! p = None).
Proof.
  unfold TestedPair_init. intros H.
  apply outcome_bind_Ok in H as (f & Hf & H).
  apply outcome_bind_Ok in H as (s & Hs & H).
  apply outcome_bind_Ok in H as (d & Hd & H). injection H as <-.
  exists f, s. simpl. repeat split; try done.
  - intros p Hp. apply fill_loop_Ok in Hd as [H1 _].
    apply H1. by apply elem_of_elements.
  - intros p Hp. apply fill_loop_Ok in Hd as [_ H2].
    rewrite H2; [done|]. by rewrite elem_of_elements.
Qed.

(** The pair of two coherent samples can be built. *)
Lemma TestedPair_init_total t f s tester :
  coherent f -> coherent s ->
  exists self, TestedPair_init t (inr f) (inr s) tester = Ok self.
Proof.
  intros Hf Hs. unfold TestedPair_init.
  rewrite (Single_init_fixed Hf), (Single_init_fixed Hs). simpl.
  destruct (@fill_loop_total _
    (fun prop => TestedPairProperty_init t f s prop tester)
    (elements (dom (s_properties f) ∩ dom (s_properties s))) ∅) as [d Hd].
  { intros p Hp. apply elem_of_elements, elem_of_intersection in Hp as [H1 H2].
    apply elem_of_dom in H1 as [x Hx], H2 as [y Hy].
    eexists. apply TestedPairProperty_init_Ok.
    split; [by apply (proj2 Hf) in Hx as [? _]|].
    split; [by apply (proj2 Hs) in Hy as [? _]|done]. }
  rewrite Hd. simpl. by eexists.
Qed.

(** ** The swapped pair *)

Lemma mean_diff_opp {L} (x y : TestedPairProperty L) :
  sp_data (tpp_first y) = sp_data (tpp_second x) ->
  sp_data (tpp_second y) = sp_data (tpp_first x) ->
  (mean_diff y == - mean_diff x)%Q.
Proof. unfold mean_diff, mean. intros -> ->. ring. Qed.

(** C6: for a pair built by the constructor, [swap] returns a pair with the
    tester of the pair, and for every property that the two samples share
    the mean difference of the swapped pair's comparison is the negation of
    the mean difference of the pair's comparison. *)
Theorem swap_negates_mean_diff t first second tester self :
  TestedPair_init t first second tester = Ok self ->
  exists swapped,
    swap t self = Ok swapped
    /\ tp_tester swapped = tp_tester self
    /\ forall property,
         property ∈ dom (s_properties (tp_first self))
                    ∩ dom (s_properties (tp_second self)) ->
         exists tpp tpp',
           TestedPair_getitem self property = Ok tpp
           /\ TestedPair_getitem swapped property = Ok tpp'
           /\ tpp_tester tpp' = tp_tester self
           /\ (mean_diff tpp' == - mean_diff tpp)%Q.
Proof.
  intros H.
  apply TestedPair_init_Ok in H as (f & s & Hf & Hs & Ef & Es & Et & Hin & _).
  apply Single_init_coherent in Hf, Hs.
  unfold swap. rewrite Ef, Es.
  destruct (@TestedPair_init_total t s f (Some (tp_tester self)) Hs Hf)
    as [swapped Hsw].
  exists swapped. split; [done|].
  apply TestedPair_init_Ok in Hsw
    as (s' & f' & Hs' & Hf' & Es' & Ef' & Et' & Hin' & _).
  rewrite (Single_init_fixed Hs) in Hs'. rewrite (Single_init_fixed Hf) in Hf'.
  injection Hs' as <-. injection Hf' as <-.
  split; [done|].
  intros p Hd.
  destruct (Hin _ Hd) as (x & Hx & Hpx).
  destruct (Hin' p) as (y & Hy & Hpy).
  { apply elem_of_intersection in Hd as [? ?]. by apply elem_of_intersection. }
  exists x, y. unfold TestedPair_getitem. rewrite Hpx, Hpy.
  split; [done|]. split; [done|].
  apply TestedPairProperty_init_Ok in Hx as (_ & _ & ->).
  apply TestedPairProperty_init_Ok in Hy as (_ & _ & ->).
  split; [done|]. by apply mean_diff_opp.
Qed.

(** ** [eq_except_property] of property comparisons *)

(** The method never reads the runs of [other]. *)
Lemma TestedPairProperty_eq_except_property_unfold {L L'}
    (self : TestedPairProperty L) (other : TestedPairProperty L') :
  TestedPairProperty_eq_except_property self (OTestedPairProperty other)
  = rundata_eqb (sp_rundata (tpp_first self)) (sp_rundata (tpp_second self))
    && tester_eqb (tpp_tester self) (tpp_tester other).
Proof. reflexivity. Qed.

(** C7: two property comparisons over the same two runs C and D, with the
    same tester, for the properties "time" and "mem": the method answers
    [False]; and for comparisons over the different run pairs (C, C) and
    (D, D) it answers [True]. *)
Theorem eq_except_property_runs_C_D :
  Single_init (inl run_C) = Ok (single_of run_C)
  /\ Single_init (inl run_D) = Ok (single_of run_D)
  /\ TestedPairProperty_init ex_tester (single_of run_C) (single_of run_D)
       "time" (Some ex_tester) = Ok (tpp_of run_C run_D "time")
  /\ TestedPairProperty_init ex_tester (single_of run_C) (single_of run_D)
       "mem" (Some ex_tester) = Ok (tpp_of run_C run_D "mem")
  /\ TestedPairProperty_eq_except_property (tpp_of run_C run_D "time")
       (OTestedPairProperty (tpp_of run_C run_D "mem")) = false
  /\ TestedPairProperty_init ex_tester (single_of run_C) (single_of run_C)
       "time" (Some ex_tester) = Ok (tpp_of run_C run_C "time")
  /\ TestedPairProperty_init ex_tester (single_of run_D) (single_of run_D)
       "time" (Some ex_tester) = Ok (tpp_of run_D run_D "time")
  /\ TestedPairProperty_eq_except_property (tpp_of run_C run_C "time")
       (OTestedPairProperty (tpp_of run_D run_D "time")) = true.
Proof. repeat split; vm_compute; reflexivity. Qed.

(** ** The tabular projection *)

Lemma series_dict_lookup {L} (l : list (string * SingleProperty L))
    (acc : gmap string (list Q)) p :
  NoDup l.*1 ->
  foldl (fun (d : gmap string (list Q)) '(prop, sp) => <[prop := sp_data sp]> d)
    acc l !! p
  = match list_to_map (M := gmap string (SingleProperty L)) l !! p with
    | Some sp => Some (sp_data sp)
    | None => acc !! p
    end.
Proof.
  revert acc. induction l as [|[k v] l IH]; intros acc Hnd; simpl; [done|].
  apply NoDup_cons in Hnd as [Hk Hnd]. rewrite IH by done.
  destruct (decide (k = p)) as [->|Hne].
  - rewrite (proj1 (not_elem_of_list_to_map _ _) Hk).
    by rewrite !lookup_insert_eq.
  - by rewrite !lookup_insert_ne by done.
Qed.

Lemma column_pd_DataFrame series_dict columns name :
  name ∈ columns ->
  column (pd_DataFrame series_dict columns) name
  = Some (default [] (series_dict !! name)).
Proof.
  unfold column, pd_DataFrame.
  induction columns as [|c columns IH]; simpl; intros Hin.
  - by apply elem_of_nil in Hin.
  - destruct (String.eqb_spec c name) as [->|Hne]; [done|].
    apply elem_of_cons in Hin as [->|Hin]; [done|]. by apply IH.
Qed.

(** The column of a property in the frame of a sample is the series of
    that property. *)
Lemma Single_get_data_frame_lookup {L} (self : Single L) property sp :
  s_properties self !! property = Some sp ->
  column (Single_get_data_frame self) property = Some (sp_data sp).
Proof.
  intros Hp. unfold Single_get_data_frame.
  rewrite column_pd_DataFrame; cycle 1.
  { rewrite <- (sorted_perm (keys (s_properties self))).
    apply elem_of_keys. by eexists. }
  rewrite series_dict_lookup by apply NoDup_fst_map_to_list.
  by rewrite list_to_map_to_list, Hp.
Qed.

(** The part of C8 about samples: for a sample built from the run [r], the
    column of the property [P] is the observation sequence [r[P]], in
    order. *)
Lemma Single_get_data_frame_column r s property d :
  Single_init (inl r) = Ok s ->
  run_data r !! property = Some d ->
  column (Single_get_data_frame s) property = Some d.
Proof.
  intros Hs Hd.
  assert (s_properties s !! property = Some (sp_of r property)) as Hp.
  { unfold Single_init in Hs.
    apply outcome_bind_Ok in Hs as (props & H & Hs). injection Hs as <-. simpl.
    apply fill_loop_Ok in H as [H1 _].
    destruct (H1 property) as (v & Hv & ->).
    { unfold run_properties. apply elem_of_elements, elem_of_dom. by eexists. }
    by apply SingleProperty_init_run in Hv as [_ ->]. }
  rewrite (Single_get_data_frame_lookup Hp). unfold sp_of. simpl.
  by rewrite Hd.
Qed.

(** C8: for the comparison of "time" between the runs C and D the frame has
    the columns "C: time" and "D: time", and both hold the observations of
    C; the observations of D, [4; 6], are in no column. *)
Theorem get_data_frame_runs_C_D :
  TestedPairProperty_init ex_tester (single_of run_C) (single_of run_D)
    "time" (Some ex_tester) = Ok (tpp_of run_C run_D "time")
  /\ sp_data (tpp_first (tpp_of run_C run_D "time")) = [1; 2; 3]%Q
  /\ sp_data (tpp_second (tpp_of run_C run_D "time")) = [4; 6]%Q
  /\ TestedPairProperty_get_data_frame (tpp_of run_C run_D "time") true
     = [("C: time", [1; 2; 3]%Q); ("D: time", [1; 2; 3]%Q)]
  /\ column (TestedPairProperty_get_data_frame (tpp_of run_C run_D "time") true)
       "D: time"
     = Some (sp_data (tpp_first (tpp_of run_C run_D "time"))).
Proof. repeat split; vm_compute; reflexivity. Qed.

(** ** The shared properties of a collection *)

Lemma shared_props_elem_of {L} (rest : list (Single L)) (X : gset string) p :
  p ∈ foldl (fun props single => props ∩ dom (s_properties single)) X rest
  <-> p ∈ X /\ forall s, s ∈ rest -> p ∈ dom (s_properties s).
Proof.
  revert X. induction rest as [|s rest IH]; intros X; simpl.
  - split; [|by intros [? _]]. intros H. split; [done|].
    intros s Hs. by apply elem_of_nil in Hs.
  - rewrite IH, elem_of_intersection. split.
    + intros [[HX Hs] Hrest]. split; [done|].
      intros s' [->|Hs']%elem_of_cons; auto.
    + intros [HX Hall]. split; [split; [done|]|].
      * apply Hall. by left.
      * intros s' Hs'. apply Hall. by right.
Qed.

(** The part of C5 about collections with samples: the result is sorted,
    without duplicates, and holds exactly the properties that every sample
    has. *)
Lemma properties_nonempty {L} (self : TestedPairsAndSingles L) :
  singles self <> [] ->
  exists l,
    TestedPairsAndSingles_properties self = Some l
    /\ Sorted str_le l /\ NoDup l
    /\ forall p, p ∈ l <-> forall s, s ∈ singles self -> p ∈ dom (s_properties s).
Proof.
  unfold TestedPairsAndSingles_properties.
  destruct (singles self) as [|s0 rest]; [done|]. intros _.
  eexists. split; [done|]. split; [apply sorted_Sorted|]. split.
  - rewrite <- sorted_perm. apply NoDup_elements.
  - intros p. rewrite <- sorted_perm, elem_of_elements, shared_props_elem_of.
    split.
    + intros [H0 Hrest] s [->|Hs]%elem_of_cons; auto.
    + intros Hall. split; [apply Hall; by left|].
      intros s Hs. apply Hall. by right.
Qed.

(** C5: [properties()] of the collection built from no samples is [None],
    not an empty list; for the samples with the property sets {a, b},
    {b, c} and {b} it is ["b"]. *)
Theorem properties_of_empty_collection :
  TestedPairsAndSingles_init ex_tester [] None
  = Ok {| singles := []; pairs := []; c_stat_messages := None |}
  /\ TestedPairsAndSingles_properties
       {| singles := []; pairs := []; c_stat_messages := None : cache |} = None
  /\ TestedPairsAndSingles_properties
       {| singles := [single_of run_ab; single_of run_bc; single_of run_b];
          pairs := []; c_stat_messages := None : cache |} = Some ["b"].
Proof. repeat split; vm_compute; reflexivity. Qed.

(** ** The diagnostics of a collection *)

(** C4: the collection built from the one sample with 10 observations of
    "time" has no pair, and its diagnostic list is empty; built from two
    such samples it has the advisory and the error. *)
Theorem collection_of_one_sample_has_no_messages :
  TestedPairsAndSingles_init ex_tester [inl run_A10] None
  = Ok {| singles := [single_of run_A10]; pairs := [];
          c_stat_messages := None |}
  /\ returned_items
       (TestedPairsAndSingles_get_stat_messages ex_sqrt
          {| singles := [single_of run_A10]; pairs := [];
             c_stat_messages := None |} 0) = Some []
  /\ TestedPairsAndSingles_init ex_tester [inl run_A10; inl run_B10] None
     = Ok collection_A10_B10
  /\ List.map cls <$> returned_items
        (TestedPairsAndSingles_get_stat_messages ex_sqrt collection_A10_B10 0)
     = Some [NotEnoughObservationsWarning; NotEnoughObservationsError;
             NotEnoughObservationsWarning; NotEnoughObservationsError;
             EffectToSmallWarning; EffectToSmallError].
Proof. repeat split; vm_compute; reflexivity. Qed.

(** ** The [_stat_messages] field *)

(** A filled, non-empty field is returned as it is. *)
Lemma get_stat_messages_hit {Self} (field : Self -> cache) set_field hook
    (self : Self) l σ :
  field self = Some l -> items l <> [] ->
  BaseStatObject_get_stat_messages field set_field hook self σ = Ok (l, self, σ).
Proof.
  intros Hf Hl. unfold BaseStatObject_get_stat_messages. rewrite Hf.
  unfold is_empty. by destruct (items l).
Qed.

(** An empty field is filled on access: the list is the [combine] of the
    messages of [_get_stat_messages]. *)
Lemma get_stat_messages_miss {Self} (field : Self -> cache) set_field hook
    (self : Self) σ l self' σ' :
  is_empty (field self) = true ->
  BaseStatObject_get_stat_messages field set_field hook self σ
  = Ok (l, self', σ') ->
  exists msgs self0 σ1,
    hook self σ = Ok (msgs, self0, σ1)
    /\ combine msgs σ1 = Ok (l, σ') /\ self' = set_field self0 l.
Proof.
  intros He. unfold BaseStatObject_get_stat_messages.
  assert ((hook self ≫= fun '(msgs, self0) =>
             combine msgs ≫= fun l => mret (l, set_field self0 l)) σ
          = Ok (l, self', σ') ->
          exists msgs self0 σ1,
            hook self σ = Ok (msgs, self0, σ1)
            /\ combine msgs σ1 = Ok (l, σ') /\ self' = set_field self0 l)
    as Hfill.
  { intros H. apply bind_Ok in H as ([msgs self0] & σ1 & Hh & H).
    apply bind_Ok in H as (l0 & σ2 & Hc & H).
    injection H as <- <- <-. by exists msgs, self0, σ1. }
  destruct (field self) as [l0|]; [|done]. by rewrite He.
Qed.

(** After a call that returned, the field holds the returned list. *)
Lemma get_stat_messages_field {Self} (field : Self -> cache) set_field hook
    (self : Self) σ l self' σ' :
  (forall o l, field (set_field o l) = Some l) ->
  BaseStatObject_get_stat_messages field set_field hook self σ
  = Ok (l, self', σ') ->
  field self' = Some l.
Proof.
  intros Hlaw. unfold BaseStatObject_get_stat_messages.
  assert (forall σ,
    (hook self ≫= fun '(msgs, self0) =>
       combine msgs ≫= fun l => mret (l, set_field self0 l)) σ
    = Ok (l, self', σ') -> field self' = Some l) as Hfill.
  { clear σ. intros σ H. apply bind_Ok in H as ([msgs self0] & σ1 & _ & H).
    apply bind_Ok in H as (l0 & σ2 & _ & H).
    injection H as <- <- <-. apply Hlaw. }
  destruct (field self) as [l0|] eqn:Hf; [|by apply Hfill].
  destruct (is_empty (Some l0)); [by apply Hfill|].
  intros [= <- <- <-]. done.
Qed.

(** C9, as amended: a call of the inherited [get_stat_messages] that
    returns a non-empty list leaves that list in the field of the object,
    and a later call, in any state, returns the identical list and the
    object unchanged. *)
Theorem get_stat_messages_cached {Self} (field : Self -> cache) set_field hook
    (self : Self) σ l self' σ' :
  (forall o l, field (set_field o l) = Some l) ->
  BaseStatObject_get_stat_messages field set_field hook self σ
  = Ok (l, self', σ') ->
  items l <> [] ->
  field self' = Some l
  /\ forall σ'', BaseStatObject_get_stat_messages field set_field hook self' σ''
                 = Ok (l, self', σ'').
Proof.
  intros Hlaw H Hl.
  pose proof (get_stat_messages_field Hlaw H) as Hf.
  split; [done|]. intros σ''. by apply get_stat_messages_hit.
Qed.

(** Against C9 as it is stated: the property statistics of 50 steady
    observations have no message, and two calls in a row return two
    different (empty) list objects.  The
    collection of the runs A and B returns a new list object on each call,
    also when the list is not empty. *)
Lemma get_stat_messages_twice :
  (exists l1 l2 σ,
     call_twice (SingleProperty_get_stat_messages ex_sqrt)
       (sp_of run_A50 "time") 0 = Ok (l1, l2, σ)
     /\ items l1 = [] /\ items l2 = [] /\ list_id l1 <> list_id l2)
  /\ (exists l1 l2 σ,
        call_twice (TestedPairsAndSingles_get_stat_messages ex_sqrt)
          collection_A10_B10 0 = Ok (l1, l2, σ)
        /\ items l1 <> [] /\ items l2 = items l1 /\ list_id l1 <> list_id l2).
Proof.
  split; eexists _, _, _; (split; [vm_compute; reflexivity|]); by repeat split.
Qed.

(** ** Instances *)

(** The merge of the messages about "time" and "mem" satisfies the
    invariant. *)
Lemma produced_message_invariant_witness :
  produced msg_merged /\ message_invariant msg_merged.
Proof.
  assert (produced msg_merged) as H.
  { apply (@produced_add msg_merged msg_time msg_mem 2 3). reflexivity. }
  split; [exact H|]. exact (produced_message_invariant H).
Defined.

(** The round that merges the two messages leaves one message. *)
Lemma combine_terminates_witness :
  find_mergeable [msg_time; msg_mem] = Some (msg_time, msg_mem)
  /\ merge_pair [msg_time; msg_mem] (msg_time, msg_mem) 2 = Ok ([msg_merged], 3)
  /\ S (length [msg_merged]) = length [msg_time; msg_mem].
Proof.
  split; [reflexivity|]. split; [reflexivity|].
  apply (proj2 (proj2 combine_terminates) [msg_time; msg_mem]
           (msg_time, msg_mem) 2 [msg_merged] 3).
  - simpl. apply NoDup_cons. split; [|apply NoDup_singleton].
    intros H%list_elem_of_singleton. discriminate H.
  - intros x [<-|[<-|[]]]; simpl; lia.
  - reflexivity.
  - reflexivity.
Defined.

(** [combine] of the two messages, one of them given twice, and of
    [None]; the merged message is alone in the result, and [combine] of
    the result returns it again. *)
Lemma combine_idempotent_witness :
  combine [Some msg_time; None; Some msg_mem; Some msg_time] 2
  = Ok ({| list_id := 3; items := [msg_merged] |}, 4)
  /\ exists l2 σ2,
       combine (Some <$> [msg_merged]) 4 = Ok (l2, σ2)
       /\ Permutation (items l2) [msg_merged].
Proof.
  split; [reflexivity|].
  apply (proj2 (@combine_idempotent
                  [Some msg_time; None; Some msg_mem; Some msg_time] 2
                  {| list_id := 3; items := [msg_merged] |} 4
                  ltac:(intros x [<-|[<-|[<-|[]]]]; simpl; lia) eq_refl)).
Defined.

(** The pair of the runs C and D, which share "mem" and "time". *)
Lemma swap_negates_mean_diff_witness :
  TestedPair_init ex_tester (inl run_C) (inl run_D) None
  = Ok (pair_of run_C run_D ["mem"; "time"])
  /\ exists swapped,
       swap ex_tester (pair_of run_C run_D ["mem"; "time"]) = Ok swapped
       /\ tp_tester swapped = ex_tester
       /\ forall property,
            property ∈ dom (s_properties (single_of run_C))
                       ∩ dom (s_properties (single_of run_D)) ->
            exists tpp tpp',
              TestedPair_getitem (pair_of run_C run_D ["mem"; "time"]) property
              = Ok tpp
              /\ TestedPair_getitem swapped property = Ok tpp'
              /\ tpp_tester tpp' = ex_tester
              /\ (mean_diff tpp' == - mean_diff tpp)%Q.
Proof.
  assert (TestedPair_init ex_tester (inl run_C) (inl run_D) None
          = Ok (pair_of run_C run_D ["mem"; "time"])) as H
    by (vm_compute; reflexivity).
  split; [exact H|]. exact (swap_negates_mean_diff H).
Defined.

(** The property statistics of 10 observations: the first call returns
    the list of the advisory and the error, every later call the same
    list. *)
Lemma get_stat_messages_cached_witness :
  SingleProperty_get_stat_messages ex_sqrt (sp_of run_A10 "time") 0
  = Ok (list_A10, sp_A10_filled, 3)
  /\ sp_stat_messages sp_A10_filled = Some list_A10
  /\ forall σ, SingleProperty_get_stat_messages ex_sqrt sp_A10_filled σ
               = Ok (list_A10, sp_A10_filled, σ).
Proof.
  assert (SingleProperty_get_stat_messages ex_sqrt (sp_of run_A10 "time") 0
          = Ok (list_A10, sp_A10_filled, 3)) as H by (vm_compute; reflexivity).
  split; [exact H|].
  refine (@get_stat_messages_cached (SingleProperty cache)
            (@sp_stat_messages cache) SingleProperty_set_stat_messages
            _ (sp_of run_A10 "time") 0 list_A10 sp_A10_filled 3 _ H _).
  - reflexivity.
  - discriminate.
Defined.

(** * Further properties of the code *)

(** ** The order of strings and [sorted] *)

Lemma str_le_lt a b : str_le a b <-> a = b \/ OrdersEx.String_as_OT.lt a b.
Proof.
  unfold str_le, String.leb, OrdersEx.String_as_OT.lt.
  change (String.compare a b) with (OrdersEx.String_as_OT.compare a b).
  pose proof (OrdersEx.String_as_OT.compare_spec a b) as Hs.
  destruct (OrdersEx.String_as_OT.compare a b); inversion Hs as [H|H|H]; split.
  - by left.
  - done.
  - by right.
  - done.
  - done.
  - intros [->|H']; [|done].
    by apply (irreflexivity OrdersEx.String_as_OT.lt) in H.
Qed.

Lemma str_le_trans a b c : str_le a b -> str_le b c -> str_le a c.
Proof.
  rewrite !str_le_lt. intros [->|H1] [->|H2]; auto.
  right. by transitivity b.
Qed.

(** A list of strings has one sorted permutation. *)
Lemma sorted_unique l l' :
  Sorted str_le l -> Sorted str_le l' -> Permutation l l' -> l = l'.
Proof.
  intros Hl Hl'.
  apply Sorted_StronglySorted in Hl; [|intros ???; apply str_le_trans].
  apply Sorted_StronglySorted in Hl'; [|intros ???; apply str_le_trans].
  revert l' Hl'. induction Hl as [|x l Hl IH Hx]; intros l' Hl' Hp.
  - by apply Permutation_nil in Hp.
  - destruct Hl' as [|y l' Hl' Hy].
    { symmetry in Hp. by apply Permutation_nil_cons in Hp. }
    assert (x = y) as ->.
    { assert (x ∈ y :: l') as Hin by (rewrite <- Hp; left).
      assert (y ∈ x :: l) as Hin' by (rewrite Hp; left).
      apply elem_of_cons in Hin as [?|Hin]; [done|].
      apply elem_of_cons in Hin' as [?|Hin']; [done|].
      apply String.leb_antisym.
      - rewrite Forall_forall in Hx. by apply Hx.
      - rewrite Forall_forall in Hy. by apply Hy. }
    f_equal. apply IH; [done|]. by apply Permutation_cons_inv in Hp.
Qed.

Lemma sorted_Permutation l l' : Permutation l l' -> sorted l = sorted l'.
Proof.
  intros Hp. apply sorted_unique; try apply sorted_Sorted.
  by rewrite <- !sorted_perm.
Qed.

(** ** The merge operator *)

(** X1: the merge operator is associative: when [(a + b) + c] and
    [a + (b + c)] both return, the two messages have the same class, the
    same parent, the same properties and the same values. *)
Theorem add_assoc a b c ab bc l r σ1 σ1' σ2 σ2' σ3 σ3' σ4 σ4' :
  StatMessage_add a b σ1 = Ok (ab, σ1') ->
  StatMessage_add ab c σ2 = Ok (l, σ2') ->
  StatMessage_add b c σ3 = Ok (bc, σ3') ->
  StatMessage_add a bc σ4 = Ok (r, σ4') ->
  cls l = cls r /\ parent l = parent r
  /\ properties l = properties r /\ values l = values r.
Proof.
  intros Hab Hl Hbc Hr.
  apply StatMessage_add_Ok in Hab as (_ & _ & _ & ->).
  apply StatMessage_add_Ok in Hl as (_ & _ & _ & ->).
  apply StatMessage_add_Ok in Hbc as (_ & _ & _ & ->).
  apply StatMessage_add_Ok in Hr as (_ & _ & _ & ->).
  simpl. repeat split.
  - apply sorted_Permutation.
    rewrite <- !sorted_perm. by rewrite app_assoc.
  - by rewrite app_assoc.
Qed.

(** ** What [combine] keeps *)

Lemma set_remove_perm m s :
  NoDup (msg_id <$> s) -> In m s -> Permutation s (m :: set_remove m s).
Proof.
  induction s as [|x s IH]; simpl; [done|].
  rewrite NoDup_cons. intros [Hx Hs] [->|Hin].
  - replace (same_object m m) with true
      by (symmetry; by apply same_object_true).
    simpl. constructor. unfold set_remove.
    rewrite forallb_filter_id; [done|].
    apply forallb_forall. intros y Hy.
    apply negb_true_iff, same_object_false. intros E. apply Hx.
    rewrite <- E. apply list_elem_of_fmap. exists y. split; [done|].
    by apply list_elem_of_In.
  - destruct (same_object x m) eqn:E; simpl.
    + exfalso. apply Hx. apply same_object_true in E. rewrite E.
      apply list_elem_of_fmap. exists m. split; [done|].
      by apply list_elem_of_In.
    + rewrite perm_swap. constructor. by apply IH.
Qed.

Lemma merged_set_shown msgs a b m σ σ' :
  NoDup (msg_id <$> msgs) -> below σ msgs ->
  In a msgs -> In b msgs -> mergeable a b = true ->
  StatMessage_add a b σ = Ok (m, σ') ->
  Permutation (shown_properties (set_add m (set_remove b (set_remove a msgs))))
    (shown_properties msgs)
  /\ Permutation (shown_values (set_add m (set_remove b (set_remove a msgs))))
       (shown_values msgs).
Proof.
  intros Hnd Hlt Ha Hb Hm Hadd.
  apply mergeable_true in Hm as (Hne & _ & Hc).
  apply StatMessage_add_Ok in Hadd as (_ & _ & -> & ->).
  assert (In b (set_remove a msgs)) as Hb'
    by (apply set_remove_In; split; [done|congruence]).
  assert (Permutation msgs (a :: b :: set_remove b (set_remove a msgs))) as Hp.
  { rewrite (set_remove_perm Hnd Ha) at 1. constructor.
    by apply set_remove_perm; [apply set_remove_ids|]. }
  rewrite set_add_fresh; cycle 1.
  { intros x Hx. apply set_remove_In in Hx as [Hx _].
    apply set_remove_In in Hx as [Hx _]. apply Hlt in Hx. simpl. lia. }
  unfold shown_properties, shown_values.
  remember (set_remove b (set_remove a msgs)) as R eqn:ER. clear ER.
  split.
  - etransitivity; [|symmetry; apply Permutation_flat_map, Hp].
    rewrite flat_map_app. simpl. rewrite app_nil_r, <- Hc.
    rewrite <- sorted_perm, List.map_app.
    etransitivity; [apply Permutation_app_comm|]. by rewrite <- app_assoc.
  - etransitivity; [|symmetry; apply Permutation_flat_map, Hp].
    rewrite flat_map_app. simpl. rewrite app_nil_r, <- Hc.
    rewrite List.map_app.
    etransitivity; [apply Permutation_app_comm|]. by rewrite <- app_assoc.
Qed.

Lemma combine_loop_shown fuel msgs σ out σ' :
  NoDup (msg_id <$> msgs) -> below σ msgs ->
  combine_loop fuel msgs σ = Ok (out, σ') ->
  Permutation (shown_properties out) (shown_properties msgs)
  /\ Permutation (shown_values out) (shown_values msgs).
Proof.
  revert msgs σ. induction fuel as [|fuel IH]; intros msgs σ Hnd Hlt; simpl.
  - destruct (find_mergeable msgs) eqn:Hf; [done|]. by intros [= <- <-].
  - destruct (find_mergeable msgs) as [[a b]|] eqn:Hf; [|by intros [= <- <-]].
    intros H. apply bind_Ok in H as (msgs1 & σ1 & Hm & H).
    destruct (merge_pair_exact Hnd Hlt Hf Hm) as (_ & Hnd1 & Hlt1).
    destruct (IH _ _ Hnd1 Hlt1 H) as [Hp Hv].
    apply find_mergeable_Some in Hf as (Ha & Hb & Hab).
    apply merge_pair_Ok in Hm as (m & Hadd & ->).
    destruct (merged_set_shown Hnd Hlt Ha Hb Hab Hadd) as [Hp1 Hv1].
    split; etransitivity; eassumption.
Qed.

(** X2: [combine] of distinct message objects loses no property and no
    value and invents none: the properties shown by the result, each with
    the class of its message, are a permutation of those shown by the
    messages given, and so are the values. *)
Theorem combine_preserves_shown messages σ l σ' :
  NoDup (msg_id <$> omap id messages) ->
  below σ (omap id messages) ->
  combine messages σ = Ok (l, σ') ->
  Permutation (shown_properties (items l)) (shown_properties (omap id messages))
  /\ Permutation (shown_values (items l)) (shown_values (omap id messages)).
Proof.
  intros Hnd Hlt H. apply combine_Ok in H as (σ1 & Hloop & _ & _).
  rewrite (py_set_NoDup Hnd) in Hloop.
  by apply (combine_loop_shown Hnd Hlt Hloop).
Qed.

Lemma combine_loop_invariant fuel msgs σ out σ' :
  (forall x, In x msgs -> message_invariant x) ->
  combine_loop fuel msgs σ = Ok (out, σ') ->
  forall x, In x out -> message_invariant x.
Proof.
  revert msgs σ. induction fuel as [|fuel IH]; intros msgs σ Hinv; simpl.
  - destruct (find_mergeable msgs) eqn:Hf; [done|]. by intros [= <- <-].
  - destruct (find_mergeable msgs) as [[a b]|] eqn:Hf; [|by intros [= <- <-]].
    intros H. apply bind_Ok in H as (msgs1 & σ1 & Hm & H).
    apply (IH msgs1 σ1); [|done].
    apply merge_pair_Ok in Hm as (m & Hadd & ->).
    intros x Hx. apply set_add_In in Hx as [->|Hx].
    + by apply StatMessage_add_invariant in Hadd.
    + apply set_remove_In in Hx as [Hx _].
      apply set_remove_In in Hx as [Hx _]. by apply Hinv.
Qed.

(** X3: on messages that satisfy the invariant of the constructor (as all
    messages built by the constructor do), [combine] raises no exception,
    and every message of the list it returns satisfies the invariant. *)
Theorem combine_keeps_invariant messages σ :
  (forall x, In x (omap id messages) -> message_invariant x) ->
  exists l σ',
    combine messages σ = Ok (l, σ')
    /\ forall x, In x (items l) -> message_invariant x.
Proof.
  intros Hinv. destruct (@combine_returns messages σ Hinv) as (l & σ' & H).
  exists l, σ'. split; [done|].
  apply combine_Ok in H as (σ1 & Hloop & _ & _).
  refine (combine_loop_invariant _ Hloop).
  intros x Hx. by apply Hinv, py_set_In.
Qed.

(** ** Samples and their copies *)

Lemma SingleProperty_init_raise r p :
  run_data r !! p = None -> SingleProperty_init (inl r) p = Raise KeyError.
Proof. intros H. unfold SingleProperty_init, run_getitem. by rewrite H. Qed.

(** [Single(r)] of a run is [single_of r]. *)
Lemma Single_init_run r : Single_init (inl r) = Ok (single_of r).
Proof.
  unfold Single_init.
  destruct (@fill_loop_total _ (fun prop => SingleProperty_init (inl r) prop)
              (run_properties r) ∅) as [d Hd].
  { intros p Hp. unfold run_properties in Hp.
    apply elem_of_elements, elem_of_dom in Hp.
    exists (sp_of r p). by apply SingleProperty_init_run. }
  rewrite Hd. simpl. unfold single_of. do 2 f_equal.
  apply fill_loop_Ok in Hd as [H1 H2]. apply map_eq. intros p.
  rewrite map_lookup_imap.
  destruct (run_data r !! p) as [x|] eqn:Hp; simpl.
  - destruct (H1 p) as (v & Hv & ->).
    { unfold run_properties. apply elem_of_elements, elem_of_dom. by eexists. }
    by apply SingleProperty_init_run in Hv as [_ ->].
  - rewrite H2, lookup_empty; [done|].
    unfold run_properties. rewrite elem_of_elements, elem_of_dom, Hp.
    by intros [? ?].
Qed.

(** X4: [Single(run)] raises no exception, and the sample has exactly one
    property statistics per property of the run, with the observations of
    that property and an unfilled message field. *)
Theorem Single_init_of_run r :
  exists s,
    Single_init (inl r) = Ok s
    /\ s_rundata s = r /\ s_stat_messages s = None
    /\ forall p,
         s_properties s !! p
         = (fun d => {| sp_rundata := r; sp_data := d; sp_property := p;
                        sp_stat_messages := None |}) <$> run_data r !! p.
Proof.
  exists (single_of r). split; [apply Single_init_run|].
  split; [done|]. split; [done|]. intros p. simpl.
  rewrite map_lookup_imap. unfold sp_of.
  by destruct (run_data r !! p).
Qed.

(** The copy of a sample depends on the run and on the names of the
    properties only. *)
Lemma Single_init_same s s' :
  coherent s -> s_rundata s' = s_rundata s ->
  (forall p, is_Some (s_properties s' !! p) <-> is_Some (s_properties s !! p)) ->
  Single_init (inr s') = Ok s.
Proof.
  intros [Hc Hcoh] Hr Hdom. unfold Single_init. rewrite Hr.
  destruct (@fill_loop_total _
    (fun prop => SingleProperty_init (inl (s_rundata s)) prop)
    (keys (s_properties s')) ∅) as [d Hd].
  { intros p Hp. apply elem_of_keys, Hdom in Hp as [sp Hp].
    destruct (Hcoh _ _ Hp) as [Hrun ->].
    exists (sp_of (s_rundata s) p). by apply SingleProperty_init_run. }
  rewrite Hd. simpl.
  assert (d = s_properties s) as ->.
  { apply fill_loop_Ok in Hd as [H1 H2]. apply map_eq. intros p.
    destruct (s_properties s !! p) as [sp|] eqn:Hp.
    - destruct (H1 p) as (v & Hv & ->).
      { apply elem_of_keys, Hdom. by eexists. }
      destruct (Hcoh _ _ Hp) as [Hrun ->].
      apply SingleProperty_init_run in Hv as [_ ->]. done.
    - rewrite H2, lookup_empty; [done|].
      rewrite elem_of_keys, Hdom, Hp. by intros [? ?]. }
  destruct s; simpl in *. by subst.
Qed.

(** X5: the copy [Single(s')] of a sample is the sample as the constructor
    first built it: the same run and property statistics, and unfilled
    message fields, whatever the message fields of [s'] hold. *)
Theorem Single_init_copy data s s' :
  Single_init data = Ok s -> view_s s' = view_s s ->
  Single_init (inr s') = Ok s.
Proof.
  intros Hs Hv. apply Single_init_coherent in Hs.
  apply Single_init_same; [done|..].
  - by apply (f_equal (@s_rundata unit)) in Hv.
  - intros p. apply (f_equal (fun x => @s_properties unit x !! p)) in Hv.
    simpl in Hv. rewrite !lookup_fmap in Hv.
    rewrite <- (fmap_is_Some view_sp (s_properties s' !! p)).
    rewrite <- (fmap_is_Some view_sp (s_properties s !! p)). by rewrite Hv.
Qed.

(** ** Comparisons and pairs *)

(** X6: [TestedPairProperty(parent, first, second, property, tester)]
    raises [KeyError] exactly when the property is missing from the run of
    [first] or from the run of [second]; it raises nothing else. *)
Theorem TestedPairProperty_init_KeyError t f s p tester :
  (TestedPairProperty_init t f s p tester = Raise KeyError
   <-> run_data (s_rundata f) !! p = None \/ run_data (s_rundata s) !! p = None)
  /\ (TestedPairProperty_init t f s p tester
      = Ok (comparison_of (s_rundata f) (s_rundata s) p
              (tester_or_default t tester))
      <-> is_Some (run_data (s_rundata f) !! p)
          /\ is_Some (run_data (s_rundata s) !! p)).
Proof.
  unfold TestedPairProperty_init, SingleProperty_init, run_getitem,
    comparison_of, sp_of.
  destruct (run_data (s_rundata f) !! p) as [d1|],
    (run_data (s_rundata s) !! p) as [d2|]; simpl; split; split;
    try done; try (intros [? ?]; by eauto); try (intros [[? ?] [? ?]]; done);
    try (by intros [?|?]); auto.
Qed.

Lemma TestedPair_init_fields t first second tester self :
  TestedPair_init t first second tester = Ok self ->
  Single_init first = Ok (tp_first self)
  /\ Single_init second = Ok (tp_second self)
  /\ tp_tester self = tester_or_default t tester
  /\ tp_stat_messages self = None
  /\ forall p,
       tp_properties self !! p
       = if decide (p ∈ dom (s_properties (tp_first self))
                        ∩ dom (s_properties (tp_second self)))
         then Some (comparison_of (s_rundata (tp_first self))
                      (s_rundata (tp_second self)) p (tp_tester self))
         else None.
Proof.
  unfold TestedPair_init. intros H.
  apply outcome_bind_Ok in H as (f & Hf & H).
  apply outcome_bind_Ok in H as (s & Hs & H).
  apply outcome_bind_Ok in H as (d & Hd & H). injection H as <-. simpl.
  repeat split; try done.
  intros p. apply fill_loop_Ok in Hd as [H1 H2]. case_decide as Hp.
  - destruct (H1 p) as (v & Hv & ->); [by apply elem_of_elements|].
    by apply TestedPairProperty_init_Ok in Hv as (_ & _ & ->).
  - rewrite H2, lookup_empty; [done|]. by rewrite elem_of_elements.
Qed.

(** Two pairs with the same fields are equal. *)
Lemma TestedPair_eq (x y : TestedPair cache) :
  tp_first x = tp_first y -> tp_second x = tp_second y ->
  tp_tester x = tp_tester y -> tp_stat_messages x = tp_stat_messages y ->
  (forall p, tp_properties x !! p = tp_properties y !! p) ->
  x = y.
Proof.
  destruct x, y; simpl. intros -> -> -> -> H. f_equal. by apply map_eq.
Qed.

Lemma TestedPair_init_returns t first second tester f s :
  Single_init first = Ok f -> Single_init second = Ok s ->
  exists self, TestedPair_init t first second tester = Ok self.
Proof.
  intros Hf Hs. unfold TestedPair_init. rewrite Hf, Hs. simpl.
  apply Single_init_coherent in Hf, Hs.
  destruct (@fill_loop_total _
    (fun prop => TestedPairProperty_init t f s prop tester)
    (elements (dom (s_properties f) ∩ dom (s_properties s))) ∅) as [d Hd].
  { intros p Hp. apply elem_of_elements, elem_of_intersection in Hp as [H1 H2].
    apply elem_of_dom in H1 as [x Hx], H2 as [y Hy].
    eexists. apply TestedPairProperty_init_Ok.
    split; [by apply (proj2 Hf) in Hx as [? _]|].
    split; [by apply (proj2 Hs) in Hy as [? _]|done]. }
  rewrite Hd. simpl. by eexists.
Qed.

Lemma dom_single_of r p :
  p ∈ dom (s_properties (single_of r)) <-> is_Some (run_data r !! p).
Proof.
  rewrite elem_of_dom. simpl. rewrite map_lookup_imap.
  destruct (run_data r !! p); simpl; split; intros [? ?]; by eauto.
Qed.

(** X7: [TestedPair(run1, run2, tester)] raises no exception: it compares
    exactly the properties that both runs have, and the comparison of a
    property holds the observations of that property in the two runs, in
    this order, and the tester of the pair. *)
Theorem TestedPair_init_of_runs t r1 r2 tester :
  exists self,
    TestedPair_init t (inl r1) (inl r2) tester = Ok self
    /\ tp_first self = single_of r1 /\ tp_second self = single_of r2
    /\ tp_tester self = tester_or_default t tester
    /\ forall p,
         tp_properties self !! p
         = match run_data r1 !! p, run_data r2 !! p with
           | Some d1, Some d2 =>
               Some {| tpp_first := {| sp_rundata := r1; sp_data := d1;
                                       sp_property := p;
                                       sp_stat_messages := None |};
                       tpp_second := {| sp_rundata := r2; sp_data := d2;
                                        sp_property := p;
                                        sp_stat_messages := None |};
                       tpp_tester := tester_or_default t tester;
                       tpp_property := p; tpp_stat_messages := None |}
           | _, _ => None
           end.
Proof.
  destruct (@TestedPair_init_returns t (inl r1) (inl r2) tester _ _
              (Single_init_run r1) (Single_init_run r2)) as [self H].
  exists self. split; [done|].
  apply TestedPair_init_fields in H as (Hf & Hs & Ht & _ & Hl).
  rewrite Single_init_run in Hf, Hs.
  injection Hf as Hf. injection Hs as Hs.
  repeat split; try done.
  intros p. rewrite Hl, <- Hf, <- Hs, Ht. simpl.
  case_decide as Hp.
  - apply elem_of_intersection in Hp as [H1 H2].
    apply (dom_single_of r1) in H1 as [d1 H1].
    apply (dom_single_of r2) in H2 as [d2 H2].
    unfold comparison_of, sp_of. by rewrite H1, H2.
  - destruct (run_data r1 !! p) as [d1|] eqn:H1; [|done].
    destruct (run_data r2 !! p) as [d2|] eqn:H2; [|done].
    exfalso. apply Hp, elem_of_intersection.
    split; apply dom_single_of; by eexists.
Qed.

(** X8: swapping twice gives the pair back: for a pair built by the
    constructor, [swap] returns a pair, and [swap] of that pair returns a
    pair equal to the first one. *)
Theorem swap_swap t first second tester self :
  TestedPair_init t first second tester = Ok self ->
  exists swapped, swap t self = Ok swapped /\ swap t swapped = Ok self.
Proof.
  intros H.
  apply TestedPair_init_fields in H as (Hf & Hs & Ht & Hm & Hl).
  pose proof (Single_init_coherent Hf) as Cf.
  pose proof (Single_init_coherent Hs) as Cs.
  destruct (@TestedPair_init_returns t (inr (tp_second self))
              (inr (tp_first self)) (Some (tp_tester self)) _ _
              (Single_init_fixed Cs) (Single_init_fixed Cf)) as [sw Hsw].
  exists sw. split; [done|].
  pose proof Hsw as Hsw'.
  apply TestedPair_init_fields in Hsw' as (Hf1 & Hs1 & Ht1 & Hm1 & Hl1).
  rewrite (Single_init_fixed Cs) in Hf1. rewrite (Single_init_fixed Cf) in Hs1.
  injection Hf1 as Hf1. injection Hs1 as Hs1. simpl in Ht1.
  unfold swap. rewrite <- Hf1, <- Hs1, Ht1.
  destruct (@TestedPair_init_returns t (inr (tp_first self))
              (inr (tp_second self)) (Some (tp_tester self)) _ _
              (Single_init_fixed Cf) (Single_init_fixed Cs)) as [back Hb].
  rewrite Hb. f_equal.
  apply TestedPair_init_fields in Hb as (Hf2 & Hs2 & Ht2 & Hm2 & Hl2).
  rewrite (Single_init_fixed Cf) in Hf2. rewrite (Single_init_fixed Cs) in Hs2.
  injection Hf2 as Hf2. injection Hs2 as Hs2. simpl in Ht2.
  apply TestedPair_eq; try congruence.
  intros p. rewrite Hl, Hl2, <- Hf2, <- Hs2, Ht2. done.
Qed.

(** ** The statistics of a swapped comparison *)

Lemma py_max_comm a b : (py_max a b == py_max b a)%Q.
Proof.
  unfold py_max.
  destruct (Qle_bool b a) eqn:E1, (Qle_bool a b) eqn:E2; try reflexivity.
  - apply Qle_bool_iff in E1, E2. by apply Qle_antisym.
  - exfalso. destruct (Qlt_le_dec a b) as [H|H].
    + apply Qlt_le_weak, Qle_bool_iff in H. congruence.
    + apply Qle_bool_iff in H. congruence.
Qed.

Lemma comparison_swapped {L} (x y : TestedPairProperty L) :
  sp_data (tpp_first y) = sp_data (tpp_second x) ->
  sp_data (tpp_second y) = sp_data (tpp_first x) ->
  (max_std_dev y == max_std_dev x)%Q
  /\ (mean_std_dev y == mean_std_dev x)%Q
  /\ (mean_diff_per_dev y == - mean_diff_per_dev x)%Q.
Proof.
  unfold mean_diff_per_dev, mean_std_dev, max_std_dev, mean_diff, mean.
  intros -> ->. split; [apply py_max_comm|]. split.
  - unfold Qdiv. ring.
  - rewrite (py_max_comm (np_mean (sp_data (tpp_second x)))).
    unfold Qdiv. ring.
Qed.

(** X9: for a pair built by the constructor and every property that the
    two samples share, the comparison of the swapped pair has the same
    [max_std_dev] and [mean_std_dev] as the comparison of the pair, and the
    negated [mean_diff_per_dev]. *)
Theorem swap_statistics t first second tester self :
  TestedPair_init t first second tester = Ok self ->
  exists swapped,
    swap t self = Ok swapped
    /\ forall property,
         property ∈ dom (s_properties (tp_first self))
                    ∩ dom (s_properties (tp_second self)) ->
         exists tpp tpp',
           TestedPair_getitem self property = Ok tpp
           /\ TestedPair_getitem swapped property = Ok tpp'
           /\ (max_std_dev tpp' == max_std_dev tpp)%Q
           /\ (mean_std_dev tpp' == mean_std_dev tpp)%Q
           /\ (mean_diff_per_dev tpp' == - mean_diff_per_dev tpp)%Q.
Proof.
  intros H.
  apply TestedPair_init_fields in H as (Hf & Hs & Ht & Hm & Hl).
  pose proof (Single_init_coherent Hf) as Cf.
  pose proof (Single_init_coherent Hs) as Cs.
  destruct (@TestedPair_init_returns t (inr (tp_second self))
              (inr (tp_first self)) (Some (tp_tester self)) _ _
              (Single_init_fixed Cs) (Single_init_fixed Cf)) as [sw Hsw].
  exists sw. split; [done|].
  apply TestedPair_init_fields in Hsw as (Hf1 & Hs1 & Ht1 & Hm1 & Hl1).
  rewrite (Single_init_fixed Cs) in Hf1. rewrite (Single_init_fixed Cf) in Hs1.
  injection Hf1 as Hf1. injection Hs1 as Hs1.
  intros p Hp. unfold TestedPair_getitem.
  rewrite Hl, Hl1, <- Hf1, <- Hs1.
  rewrite decide_True by done.
  rewrite decide_True
    by (apply elem_of_intersection in Hp as [? ?]; by apply elem_of_intersection).
  eexists _, _. split; [done|]. split; [done|].
  by apply comparison_swapped.
Qed.

(** ** Collections *)

Lemma Single_init_loop runs acc :
  foldM (fun acc data => s ← Single_init data; mret (acc ++ [s])) acc
    (inl <$> runs)
  = Ok (acc ++ (single_of <$> runs)).
Proof.
  revert acc. induction runs as [|r runs IH]; intros acc; simpl.
  - by rewrite app_nil_r.
  - rewrite Single_init_run. simpl. rewrite IH. by rewrite <- app_assoc.
Qed.

Lemma Single_init_loop_coherent data acc out :
  foldM (fun acc data => s ← Single_init data; mret (acc ++ [s])) acc data
  = Ok out ->
  Forall coherent acc -> Forall coherent out.
Proof.
  revert acc. induction data as [|x data IH]; intros acc; simpl.
  - by intros [= <-].
  - intros H Hacc. apply outcome_bind_Ok in H as (acc1 & H1 & H).
    apply outcome_bind_Ok in H1 as (s & Hs & H1). injection H1 as <-.
    apply (IH _ H). apply Forall_app. split; [done|].
    apply Forall_singleton. by apply Single_init_coherent in Hs.
Qed.

(** The pair of the samples at two indices in range. *)
Lemma get_pair_of_in_range t singles i j :
  Forall coherent singles ->
  (0 <= i < Z.of_nat (length singles))%Z ->
  (0 <= j < Z.of_nat (length singles))%Z ->
  exists p,
    get_pair_of t singles i j = Ok p
    /\ singles !! Z.to_nat i = Some (tp_first p)
    /\ singles !! Z.to_nat j = Some (tp_second p).
Proof.
  intros Hc Hi Hj. unfold get_pair_of.
  rewrite !bool_decide_eq_true_2 by done. simpl.
  destruct (lookup_lt_is_Some_2 singles (Z.to_nat i)) as [a Ha]; [lia|].
  destruct (lookup_lt_is_Some_2 singles (Z.to_nat j)) as [b Hb]; [lia|].
  rewrite Ha, Hb.
  rewrite Forall_forall in Hc.
  assert (coherent a) as Ca by (eapply Hc, list_elem_of_lookup_2, Ha).
  assert (coherent b) as Cb by (eapply Hc, list_elem_of_lookup_2, Hb).
  destruct (@TestedPair_init_returns t (inr a) (inr b) None _ _
              (Single_init_fixed Ca) (Single_init_fixed Cb)) as [p Hp].
  exists p. split; [done|].
  apply TestedPair_init_fields in Hp as (Hf & Hs & _).
  rewrite (Single_init_fixed Ca) in Hf. rewrite (Single_init_fixed Cb) in Hs.
  injection Hf as <-. injection Hs as <-. done.
Qed.

Lemma index_pairs_range n i j :
  (i, j) ∈ index_pairs n ->
  (0 <= i < j)%Z /\ (j < Z.of_nat n)%Z.
Proof.
  unfold index_pairs. intros H.
  apply list_elem_of_bind in H as (a & H & Ha).
  apply list_elem_of_bind in H as (b & H & Hb).
  apply list_elem_of_singleton in H. injection H as -> ->.
  apply elem_of_seq in Ha, Hb. lia.
Qed.

Lemma index_pairs_length_from m a N :
  N = a + m + 1 ->
  2 * length (i ← seq a m;
              j ← seq (i + 1) (N - (i + 1)); [(Z.of_nat i, Z.of_nat j)])
  = m * (m + 1).
Proof.
  set (f := fun i : nat =>
              j ← seq (i + 1) (N - (i + 1)); [(Z.of_nat i, Z.of_nat j)]).
  revert a. induction m as [|m IH]; intros a HN; [done|].
  assert (seq a (S m) ≫= f = f a ++ (seq (S a) m ≫= f)) as -> by reflexivity.
  rewrite length_app.
  assert (length (f a) = S m) as ->.
  { unfold f.
    assert (forall l : list nat,
              length (j ← l; [(Z.of_nat a, Z.of_nat j)]) = length l) as Hl.
    { induction l as [|x l IHl]; [done|].
      change (S (length (j ← l; [(Z.of_nat a, Z.of_nat j)])) = S (length l)).
      by f_equal. }
    etransitivity; [apply Hl|]. rewrite length_seq. lia. }
  pose proof (IH (S a)) as IH'. nia.
Qed.

Lemma index_pairs_length n : 2 * length (index_pairs n) = n * (n - 1).
Proof.
  unfold index_pairs. destruct n as [|n]; [done|].
  rewrite (@index_pairs_length_from (S n - 1) 0 (S n)) by lia. nia.
Qed.

Lemma get_pair_loop t singles l acc :
  Forall coherent singles ->
  (forall i j, (i, j) ∈ l ->
     (0 <= i < Z.of_nat (length singles))%Z
     /\ (0 <= j < Z.of_nat (length singles))%Z) ->
  exists ps,
    foldM (fun acc '(i, j) => p ← get_pair_of t singles i j; mret (acc ++ [p]))
      acc l = Ok (acc ++ ps)
    /\ Forall2 (fun '(i, j) p =>
                  singles !! Z.to_nat i = Some (tp_first p)
                  /\ singles !! Z.to_nat j = Some (tp_second p)) l ps.
Proof.
  intros Hc. revert acc. induction l as [|[i j] l IH]; intros acc Hr; simpl.
  - exists []. by rewrite app_nil_r.
  - destruct (Hr i j) as [Hi Hj]; [by left|].
    destruct (get_pair_of_in_range t Hc Hi Hj) as (p & Hp & H1 & H2).
    rewrite Hp. simpl.
    destruct (IH (acc ++ [p])) as (ps & Hps & HF).
    { intros i' j' H'. apply Hr. by right. }
    exists (p :: ps). rewrite Hps, <- app_assoc. split; [done|].
    by constructor.
Qed.

(** X10: [TestedPairsAndSingles(runs)] raises no exception: it holds one
    sample per run, in order, and one pair for every two indices i < j, in
    the order of the two nested loops; the pair of (i, j) has the samples
    at i and at j as its first and second, and for n runs there are
    n (n - 1) / 2 pairs. *)
Theorem TestedPairsAndSingles_init_of_runs t runs :
  exists c,
    TestedPairsAndSingles_init t (inl <$> runs) None = Ok c
    /\ singles c = single_of <$> runs
    /\ Forall2 (fun '(i, j) p =>
                  singles c !! Z.to_nat i = Some (tp_first p)
                  /\ singles c !! Z.to_nat j = Some (tp_second p))
         (index_pairs (length runs)) (pairs c)
    /\ 2 * length (pairs c) = length runs * (length runs - 1).
Proof.
  unfold TestedPairsAndSingles_init.
  rewrite (Single_init_loop runs []). simpl.
  assert (Forall coherent (single_of <$> runs)) as Hc.
  { apply Forall_fmap, Forall_forall. intros r _.
    apply (Single_init_coherent (Single_init_run r)). }
  assert (length (single_of <$> runs) = length runs) as Hlen
    by apply length_fmap.
  rewrite Hlen.
  destruct (@get_pair_loop t (single_of <$> runs)
              (index_pairs (length runs)) [] Hc) as (ps & Hps & HF).
  { intros i j Hij. apply index_pairs_range in Hij. rewrite Hlen. lia. }
  case_bool_decide as Hn.
  - rewrite Hps. simpl. eexists. split; [done|]. simpl.
    repeat split; try done.
    rewrite <- (Forall2_length _ _ _ HF). apply index_pairs_length.
  - eexists. split; [done|]. simpl.
    assert (index_pairs (length runs) = []) as Hnil.
    { pose proof (index_pairs_length (length runs)) as Hl.
      destruct (index_pairs (length runs)); [done|]. simpl in Hl. nia. }
    rewrite Hnil. repeat split; try done. simpl. nia.
Qed.

(** X11: the lookups of a collection are checked against its bounds: for a
    collection built by the constructor, [get_pair(i, j)] returns the pair
    of the samples at i and j when both indices are within [0, n), and
    raises [AssertionError] otherwise; [self[i]] returns the sample at i
    or raises [AssertionError] in the same way. *)
Theorem collection_lookups_checked t data ps c i j :
  TestedPairsAndSingles_init t data ps = Ok c ->
  (if bool_decide ((0 <= i < Z.of_nat (number_of_singles c))%Z
                   /\ (0 <= j < Z.of_nat (number_of_singles c))%Z)
   then exists p,
          get_pair t c i j = Ok p
          /\ singles c !! Z.to_nat i = Some (tp_first p)
          /\ singles c !! Z.to_nat j = Some (tp_second p)
   else get_pair t c i j = Raise AssertionError)
  /\ (if bool_decide (0 <= i < Z.of_nat (number_of_singles c))%Z
      then exists s,
             TestedPairsAndSingles_getitem c i = Ok s
             /\ singles c !! Z.to_nat i = Some s
      else TestedPairsAndSingles_getitem c i = Raise AssertionError).
Proof.
  intros H. unfold TestedPairsAndSingles_init in H.
  apply outcome_bind_Ok in H as (ss & Hss & H).
  apply outcome_bind_Ok in H as (ps' & _ & H). injection H as <-.
  apply Single_init_loop_coherent in Hss; [|constructor].
  unfold get_pair, TestedPairsAndSingles_getitem, number_of_singles. simpl.
  split.
  - case_bool_decide as Hr.
    + destruct Hr as [Hi Hj]. by apply get_pair_of_in_range.
    + unfold get_pair_of.
      destruct (bool_decide (0 ≤ i < Z.of_nat (length ss))%Z) eqn:Ei;
        destruct (bool_decide (0 ≤ j < Z.of_nat (length ss))%Z) eqn:Ej;
        simpl; try done.
      apply bool_decide_eq_true in Ei, Ej. tauto.
  - case_bool_decide as Hi; [|done].
    destruct (lookup_lt_is_Some_2 ss (Z.to_nat i)) as [a Ha]; [lia|].
    rewrite Ha. by exists a.
Qed.

(** ** The diagnostics of a property of a sample *)

Lemma create_if_valid_inr c me v p σ :
  create_if_valid c me v (inr p) σ
  = if check_value c v then Ok (None, σ)
    else Ok (Some {| msg_id := σ; cls := c; parent := me;
                     properties := [p]; values := [v] |}, S σ).
Proof. unfold create_if_valid. by destruct (check_value c v). Qed.

Lemma created_ids me p cs σ :
  msg_id <$> created me p cs σ = seq σ (length (created me p cs σ)).
Proof.
  revert σ. induction cs as [|[c v] cs IH]; intros σ; simpl; [done|].
  destruct (check_value c v); [done|]. simpl. by rewrite IH.
Qed.

Lemma created_elem me p cs σ m :
  m ∈ created me p cs σ ->
  parent m = me /\ properties m = [p]
  /\ exists v, values m = [v] /\ (cls m, v) ∈ cs
               /\ check_value (cls m) v = false.
Proof.
  revert σ. induction cs as [|[c v] cs IH]; intros σ; simpl.
  - by intros ?%elem_of_nil.
  - destruct (check_value c v) eqn:Hc.
    + intros (? & ? & v' & ? & ? & ?)%IH. repeat split; try done.
      exists v'. repeat split; try done. by right.
    + intros [->|H]%elem_of_cons.
      * simpl. repeat split. exists v. repeat split; try done. by left.
      * apply IH in H as (? & ? & v' & ? & ? & ?). repeat split; try done.
        exists v'. repeat split; try done. by right.
Qed.

Lemma created_cls me p cs σ c v :
  (c, v) ∈ cs -> check_value c v = false -> c ∈ cls <$> created me p cs σ.
Proof.
  revert σ. induction cs as [|[c' v'] cs IH]; intros σ; simpl.
  - by intros ?%elem_of_nil.
  - intros [[= -> ->]|H]%elem_of_cons Hc.
    + rewrite Hc. by left.
    + destruct (check_value c' v'); [by apply IH|]. right. by apply IH.
Qed.

Lemma created_NoDup_cls me p cs σ :
  NoDup cs.*1 -> NoDup (cls <$> created me p cs σ).
Proof.
  revert σ. induction cs as [|[c v] cs IH]; intros σ; simpl.
  - intros _. apply NoDup_nil_2.
  - intros [Hc Hnd]%NoDup_cons. destruct (check_value c v); [by apply IH|].
    simpl. apply NoDup_cons. split; [|by apply IH].
    intros (m & Hm & Hin)%list_elem_of_fmap.
    apply created_elem in Hin as (_ & _ & v' & _ & Hin & _).
    apply Hc. apply list_elem_of_fmap. exists (cls m, v'). by split.
Qed.

Lemma created_invariant me p cs σ m :
  m ∈ created me p cs σ -> message_invariant m.
Proof.
  intros (_ & Hp & v & Hv & _)%created_elem. unfold message_invariant.
  rewrite Hp, Hv. split; [done|]. split; [|done]. repeat constructor.
Qed.

(** A set in which no two messages are of one class has nothing to merge. *)
Lemma find_mergeable_distinct msgs :
  NoDup (cls <$> msgs) -> find_mergeable msgs = None.
Proof.
  intros Hnd. unfold find_mergeable.
  destruct (List.find _ _) as [[a b]|] eqn:Hf; [|done]. exfalso.
  apply find_some in Hf as [Hin Hm]. simpl in Hm.
  apply in_prod_iff in Hin as [Ha Hb].
  apply mergeable_true in Hm as (Hid & _ & Hc).
  apply list_elem_of_In, list_elem_of_lookup in Ha as [i Hi].
  apply list_elem_of_In, list_elem_of_lookup in Hb as [j Hj].
  assert (i = j) as ->.
  { apply (NoDup_lookup _ _ _ (cls a) Hnd); rewrite list_lookup_fmap.
    - by rewrite Hi.
    - by rewrite Hj, Hc. }
  rewrite Hi in Hj. injection Hj as <-. done.
Qed.

Lemma combine_distinct messages σ :
  NoDup (msg_id <$> omap id messages) ->
  NoDup (cls <$> omap id messages) ->
  combine messages σ = Ok ({| list_id := σ; items := omap id messages |}, S σ).
Proof.
  intros Hid Hc. unfold combine. rewrite (py_set_NoDup Hid).
  unfold mbind, M_bind at 1.
  by rewrite (combine_loop_fixed _ _ (find_mergeable_distinct Hc)).
Qed.

Lemma get_stat_messages_fill {Self} (field : Self -> cache) set_field hook
    (self : Self) σ :
  is_empty (field self) = true ->
  BaseStatObject_get_stat_messages field set_field hook self σ
  = ('(msgs, self0) ← hook self;
     l ← combine msgs; mret (l, set_field self0 l)) σ.
Proof.
  intros He. unfold BaseStatObject_get_stat_messages.
  destruct (field self) as [l0|]; [|done]. by rewrite He.
Qed.

Lemma SingleProperty__get_stat_messages_created sq sp σ :
  exists ms,
    SingleProperty__get_stat_messages sq sp σ
    = Ok (ms, length (omap id ms) + σ)
    /\ omap id ms
       = created (OSingleProperty (view_sp sp)) (sp_property sp)
           (SingleProperty_checks sq sp) σ.
Proof.
  unfold SingleProperty__get_stat_messages, SingleProperty_checks, created.
  cbv [mbind M_bind].
  rewrite create_if_valid_inr.
  destruct (check_value StdDeviationToHighWarning _);
    rewrite create_if_valid_inr;
    destruct (check_value StdDeviationToHighError _);
    rewrite create_if_valid_inr;
    destruct (check_value NotEnoughObservationsWarning _);
    rewrite create_if_valid_inr;
    destruct (check_value NotEnoughObservationsError _);
    match goal with |- exists ms, mret ?x _ = _ /\ _ => exists x end;
    split; reflexivity.
Qed.

Lemma SingleProperty_checks_NoDup {L} sq (sp : SingleProperty L) :
  NoDup (SingleProperty_checks sq sp).*1.
Proof.
  unfold SingleProperty_checks. simpl.
  repeat (apply NoDup_cons; split;
          [rewrite ?elem_of_cons, elem_of_nil; intuition discriminate|]).
  apply NoDup_nil_2.
Qed.

(** The first call on a property of a sample: the messages created, in the
    order of the checks, in a new list. *)
Lemma SingleProperty_get_stat_messages_fresh sq sp σ :
  is_empty (sp_stat_messages sp) = true ->
  exists l,
    SingleProperty_get_stat_messages sq sp σ
    = Ok (l, SingleProperty_set_stat_messages sp l, S (list_id l))
    /\ items l = created (OSingleProperty (view_sp sp)) (sp_property sp)
                   (SingleProperty_checks sq sp) σ
    /\ list_id l = length (items l) + σ.
Proof.
  intros He. unfold SingleProperty_get_stat_messages.
  rewrite get_stat_messages_fill by done.
  destruct (SingleProperty__get_stat_messages_created sq sp σ)
    as (ms & Hms & Hcr).
  cbv [mbind M_bind mret M_ret]. rewrite Hms.
  rewrite combine_distinct.
  - exists {| list_id := length (omap id ms) + σ; items := omap id ms |}.
    split; [reflexivity|]. simpl. by rewrite Hcr.
  - rewrite Hcr, created_ids. apply NoDup_seq.
  - rewrite Hcr. apply created_NoDup_cls, SingleProperty_checks_NoDup.
Qed.

Lemma check_observations (k : Z) n :
  Qle_bool (inject_Z k) (of_int n) = false <-> (Z.of_nat n < k)%Z.
Proof.
  unfold of_int. rewrite <- not_true_iff_false, Qle_bool_iff, <- Zle_Qle. lia.
Qed.

(** Whatever fails the check of an error class fails the check of the
    advisory class that it extends. *)
Lemma check_value_advisory c w v :
  advisory_of c = Some w -> check_value c v = false -> check_value w v = false.
Proof.
  destruct c; cbv [advisory_of type_of base_class]; try done; intros [= <-];
    cbv [check_value border_value]; try done;
    rewrite <- !not_true_iff_false, !Qle_bool_iff; intros H1 H2; apply H1.
  - eapply Qle_trans; [exact H2|]. by vm_compute.
  - eapply Qle_trans; [|exact H2]. by vm_compute.
  - eapply Qle_trans; [|exact H2]. by vm_compute.
Qed.

(** X12: the first [get_stat_messages()] of a property of a sample raises
    no exception and stores the list that it returns.  The list has at most
    one message of each class, each about this object and this property
    alone; the advisory about the number of observations is in it exactly
    when there are fewer than 30 observations, the error exactly when
    there are fewer than 15. *)
Theorem SingleProperty_diagnostics sq sp σ :
  is_empty (sp_stat_messages sp) = true ->
  exists l,
    SingleProperty_get_stat_messages sq sp σ
    = Ok (l, SingleProperty_set_stat_messages sp l, S (list_id l))
    /\ NoDup (cls <$> items l)
    /\ (forall m, m ∈ items l ->
          parent m = OSingleProperty (view_sp sp)
          /\ properties m = [sp_property sp] /\ length (values m) = 1)
    /\ (NotEnoughObservationsWarning ∈ cls <$> items l
        <-> observations sp < 30)
    /\ (NotEnoughObservationsError ∈ cls <$> items l
        <-> observations sp < 15).
Proof.
  intros He.
  destruct (SingleProperty_get_stat_messages_fresh sq σ He) as (l & H & Hi & _).
  exists l. split; [done|]. rewrite Hi.
  split; [apply created_NoDup_cls, SingleProperty_checks_NoDup|].
  split.
  { intros m (? & ? & v & -> & _)%created_elem. done. }
  assert (forall c (k : Z),
            border_value c = inject_Z k ->
            check_value c = (fun v => Qle_bool (border_value c) v) ->
            (c, of_int (observations sp)) ∈ SingleProperty_checks sq sp ->
            (forall v, (c, v) ∈ SingleProperty_checks sq sp ->
                       v = of_int (observations sp)) ->
            c ∈ cls <$> created (OSingleProperty (view_sp sp)) (sp_property sp)
                          (SingleProperty_checks sq sp) σ
            <-> (Z.of_nat (observations sp) < k)%Z) as Hth.
  { intros c k Hb Hc Hin Hv. rewrite <- check_observations, <- Hb. split.
    - intros (m & -> & Hm)%list_elem_of_fmap.
      apply created_elem in Hm as (_ & _ & v & _ & Hm & Hch).
      rewrite <- (Hv _ Hm). by rewrite Hc in Hch.
    - intros Hch. apply (created_cls _ _ _ Hin). by rewrite Hc. }
  split.
  - rewrite (Hth NotEnoughObservationsWarning 30%Z); [lia|done|done|..].
    + unfold SingleProperty_checks. rewrite !elem_of_cons. tauto.
    + unfold SingleProperty_checks. intros v.
      rewrite !elem_of_cons, elem_of_nil. intuition congruence.
  - rewrite (Hth NotEnoughObservationsError 15%Z); [lia|done|done|..].
    + unfold SingleProperty_checks. rewrite !elem_of_cons. tauto.
    + unfold SingleProperty_checks. intros v.
      rewrite !elem_of_cons, elem_of_nil. intuition congruence.
Qed.

Lemma existsb_has_type ty msgs :
  existsb (has_type ty) msgs = true
  <-> exists m, m ∈ msgs /\ type_of (cls m) = Some ty.
Proof.
  rewrite existsb_exists. unfold has_type. split.
  - intros (m & Hm & Ht). exists m. split; [by apply list_elem_of_In|].
    by destruct (type_of (cls m)) as [[]|], ty.
  - intros (m & Hm & Ht). exists m. split; [by apply list_elem_of_In|].
    rewrite Ht. by destruct ty.
Qed.

(** Among the messages created by a row of checks that has the advisory
    check for every error check, an error message comes with its
    advisory. *)
Lemma created_advisory me p cs σ m :
  (forall c w v, (c, v) ∈ cs -> advisory_of c = Some w -> (w, v) ∈ cs) ->
  m ∈ created me p cs σ -> type_of (cls m) = Some ERROR ->
  exists m', m' ∈ created me p cs σ /\ type_of (cls m') = Some WARNING.
Proof.
  intros Hcs Hm Ht.
  apply created_elem in Hm as (_ & _ & v & _ & Hin & Hch).
  assert (exists w, advisory_of (cls m) = Some w /\ type_of w = Some WARNING)
    as (w & Hw & Htw).
  { unfold advisory_of. rewrite Ht.
    destruct (cls m); try done; by eexists. }
  pose proof (created_cls me p σ (Hcs _ _ _ Hin Hw)
                (check_value_advisory Hw Hch)) as Hin'.
  apply list_elem_of_fmap in Hin' as (m' & -> & Hm'). by exists m'.
Qed.

Lemma SingleProperty_checks_advisory {L} sq (sp : SingleProperty L) c w v :
  (c, v) ∈ SingleProperty_checks sq sp -> advisory_of c = Some w ->
  (w, v) ∈ SingleProperty_checks sq sp.
Proof.
  unfold SingleProperty_checks. rewrite !elem_of_cons, elem_of_nil.
  intros [H|[H|[H|[H|[]]]]]; injection H as -> ->; try done;
    intros [= <-]; tauto.
Qed.

(** X13: a property of a sample never has an error without an advisory:
    when its first [has_errors()] is true, every later [has_warnings()]
    is true too, and is answered from the stored list: the object and the
    state stay as they are. *)
Theorem SingleProperty_has_errors_has_warnings sq sp σ sp' σ' :
  is_empty (sp_stat_messages sp) = true ->
  BaseStatObject_has_errors (SingleProperty_get_stat_messages sq) sp σ
  = Ok (true, sp', σ') ->
  forall σ'',
    BaseStatObject_has_warnings (SingleProperty_get_stat_messages sq) sp' σ''
    = Ok (true, sp', σ'').
Proof.
  intros He H σ''.
  destruct (SingleProperty_get_stat_messages_fresh sq σ He) as (l & Hl & Hi & _).
  unfold BaseStatObject_has_errors in H. cbv [mbind M_bind mret M_ret] in H.
  rewrite Hl in H. injection H as Hex <- <-.
  apply existsb_has_type in Hex as (m & Hm & Ht).
  rewrite Hi in Hm.
  destruct (created_advisory (@SingleProperty_checks_advisory _ sq sp) Hm Ht)
    as (m' & Hm' & Ht').
  rewrite <- Hi in Hm'.
  unfold BaseStatObject_has_warnings, SingleProperty_get_stat_messages.
  cbv [mbind M_bind mret M_ret].
  rewrite (@get_stat_messages_hit _ _ _ _ _ l); [|done|].
  - assert (existsb (has_type WARNING) (items l) = true) as ->; [|done].
    apply existsb_has_type. by exists m'.
  - intros Hnil. rewrite Hnil in Hm'. by apply elem_of_nil in Hm'.
Qed.

(** ** The diagnostics of a comparison *)



Lemma elem_of_shown_values msgs c v :
  (c, v) ∈ shown_values msgs
  <-> exists m, m ∈ msgs /\ cls m = c /\ v ∈ values m.
Proof.
  unfold shown_values. rewrite list_elem_of_In, in_flat_map. split.
  - intros (m & Hm & H). apply in_map_iff in H as (v' & [= <- <-] & Hv).
    exists m. by rewrite !list_elem_of_In.
  - intros (m & Hm & <- & Hv). exists m. rewrite <- list_elem_of_In.
    split; [done|]. apply in_map_iff. exists v. by rewrite <- list_elem_of_In.
Qed.

Lemma elem_of_shown_properties msgs c p :
  (c, p) ∈ shown_properties msgs
  <-> exists m, m ∈ msgs /\ cls m = c /\ p ∈ properties m.
Proof.
  unfold shown_properties. rewrite list_elem_of_In, in_flat_map. split.
  - intros (m & Hm & H). apply in_map_iff in H as (v' & [= <- <-] & Hv).
    exists m. by rewrite !list_elem_of_In.
  - intros (m & Hm & <- & Hv). exists m. rewrite <- list_elem_of_In.
    split; [done|]. apply in_map_iff. exists p. by rewrite <- list_elem_of_In.
Qed.

Lemma combine_shown messages σ l σ' :
  NoDup (msg_id <$> omap id messages) ->
  below σ (omap id messages) ->
  combine messages σ = Ok (l, σ') ->
  Permutation (shown_properties (items l)) (shown_properties (omap id messages))
  /\ Permutation (shown_values (items l)) (shown_values (omap id messages)).
Proof.
  intros Hnd Hlt H. apply combine_Ok in H as (σ1 & Hloop & _ & _).
  rewrite (py_set_NoDup Hnd) in Hloop.
  by apply (combine_loop_shown Hnd Hlt Hloop).
Qed.

(** The classes of the messages that [combine] returns are those of the
    messages given. *)
Lemma combine_classes messages σ l σ' c :
  NoDup (msg_id <$> omap id messages) ->
  below σ (omap id messages) ->
  (forall x, In x (omap id messages) -> message_invariant x) ->
  combine messages σ = Ok (l, σ') ->
  c ∈ cls <$> items l <-> c ∈ cls <$> omap id messages.
Proof.
  intros Hnd Hlt Hinv H.
  destruct (combine_shown Hnd Hlt H) as [Hp _].
  assert (forall x, In x (items l) -> message_invariant x) as Hinv'.
  { apply combine_Ok in H as (σ1 & Hloop & _ & _).
    refine (combine_loop_invariant _ Hloop).
    intros x Hx. by apply Hinv, py_set_In. }
  assert (forall msgs, (forall x, In x msgs -> message_invariant x) ->
            c ∈ cls <$> msgs <-> exists p, (c, p) ∈ shown_properties msgs) as E.
  { intros msgs Hi. split.
    - intros (m & -> & Hm)%list_elem_of_fmap.
      destruct (Hi m) as (Hne & _); [by apply list_elem_of_In|].
      destruct (properties m) as [|p ps] eqn:Hps; [done|].
      exists p. apply elem_of_shown_properties. exists m.
      rewrite Hps. repeat split; [done|by left].
    - intros (p & (m & Hm & <- & _)%elem_of_shown_properties).
      apply list_elem_of_fmap. by exists m. }
  rewrite (E _ Hinv), (E _ Hinv'). by setoid_rewrite Hp.
Qed.

Lemma created_range me p cs σ m :
  m ∈ created me p cs σ ->
  σ <= msg_id m < length (created me p cs σ) + σ.
Proof.
  intros Hm.
  assert (msg_id m ∈ msg_id <$> created me p cs σ) as H
    by (apply list_elem_of_fmap; by exists m).
  rewrite created_ids in H. apply elem_of_seq in H. lia.
Qed.

Lemma TestedPairProperty_checks_NoDup {L} (tpp : TestedPairProperty L) :
  NoDup (TestedPairProperty_checks tpp).*1.
Proof.
  unfold TestedPairProperty_checks. simpl.
  repeat (apply NoDup_cons; split;
          [rewrite ?elem_of_cons, elem_of_nil; intuition discriminate|]).
  apply NoDup_nil_2.
Qed.

Lemma TestedPairProperty_checks_advisory {L} (tpp : TestedPairProperty L) c w v :
  (c, v) ∈ TestedPairProperty_checks tpp -> advisory_of c = Some w ->
  (w, v) ∈ TestedPairProperty_checks tpp.
Proof.
  unfold TestedPairProperty_checks. rewrite !elem_of_cons, elem_of_nil.
  intros [H|[H|[]]]; injection H as -> ->; try done; intros [= <-]; tauto.
Qed.

(** The messages that [_get_stat_messages] of a comparison hands over on
    the first call: those of the first sample, those of the second, and
    its own. *)
Lemma TestedPairProperty__get_stat_messages_fresh sq tpp σ :
  is_empty (sp_stat_messages (tpp_first tpp)) = true ->
  is_empty (sp_stat_messages (tpp_second tpp)) = true ->
  exists msgs tpp' c1 c2 c3 σ1 σ2,
    TestedPairProperty__get_stat_messages sq tpp σ
    = Ok (msgs, tpp', length c3 + σ2)
    /\ omap id msgs = c1 ++ c2 ++ c3
    /\ tpp_stat_messages tpp' = tpp_stat_messages tpp
    /\ c1 = created (OSingleProperty (view_sp (tpp_first tpp)))
              (sp_property (tpp_first tpp))
              (SingleProperty_checks sq (tpp_first tpp)) σ
    /\ σ1 = S (length c1 + σ)
    /\ c2 = created (OSingleProperty (view_sp (tpp_second tpp)))
              (sp_property (tpp_second tpp))
              (SingleProperty_checks sq (tpp_second tpp)) σ1
    /\ σ2 = S (length c2 + σ1)
    /\ c3 = created (OTestedPairProperty (view_tpp tpp)) (tpp_property tpp)
              (TestedPairProperty_checks tpp) σ2.
Proof.
  intros He1 He2.
  destruct (SingleProperty_get_stat_messages_fresh sq σ He1)
    as ([id1 c1] & H1 & Hi1 & Hid1).
  cbn [items list_id] in Hi1, Hid1, H1.
  destruct (SingleProperty_get_stat_messages_fresh sq (S id1) He2)
    as ([id2 c2] & H2 & Hi2 & Hid2).
  cbn [items list_id] in Hi2, Hid2, H2.
  unfold TestedPairProperty__get_stat_messages. cbv [mbind M_bind].
  rewrite H1, H2. cbv [items].
  match goal with
  | |- context [create_if_valid _ (OTestedPairProperty (view_tpp ?s))] =>
      change (view_tpp s) with (view_tpp tpp);
      change (mean_diff_per_dev s) with (mean_diff_per_dev tpp);
      change (tpp_property s) with (tpp_property tpp);
      set (self' := s)
  end.
  assert (tpp_stat_messages self' = tpp_stat_messages tpp) as Hst by done.
  clearbody self'.
  set (c3 := created (OTestedPairProperty (view_tpp tpp)) (tpp_property tpp)
               (TestedPairProperty_checks tpp) (S id2)).
  assert (forall (opts : list (option StatMessage)) k,
            omap id opts = c3 -> k = length c3 + S id2 ->
            exists msgs tpp' c1' c2' c3' σ1 σ2,
              @Ok (list (option StatMessage) * TestedPairProperty cache * nat)
                ((Some <$> c1) ++ (Some <$> c2) ++ opts, self', k)
              = Ok (msgs, tpp', length c3' + σ2)
              /\ omap id msgs = c1' ++ c2' ++ c3'
              /\ tpp_stat_messages tpp' = tpp_stat_messages tpp
              /\ c1' = created (OSingleProperty (view_sp (tpp_first tpp)))
                         (sp_property (tpp_first tpp))
                         (SingleProperty_checks sq (tpp_first tpp)) σ
              /\ σ1 = S (length c1' + σ)
              /\ c2' = created (OSingleProperty (view_sp (tpp_second tpp)))
                         (sp_property (tpp_second tpp))
                         (SingleProperty_checks sq (tpp_second tpp)) σ1
              /\ σ2 = S (length c2' + σ1)
              /\ c3' = created (OTestedPairProperty (view_tpp tpp))
                         (tpp_property tpp) (TestedPairProperty_checks tpp) σ2)
    as Hend.
  { intros opts k Ho ->.
    exists ((Some <$> c1) ++ (Some <$> c2) ++ opts), self', c1, c2, c3,
      (S id1), (S id2).
    split; [done|]. split.
    { by rewrite !omap_app, !omap_id_Some, Ho. }
    split; [done|]. subst id1 id2 c1 c2. done. }
  rewrite create_if_valid_inr.
  destruct (check_value EffectToSmallWarning (mean_diff_per_dev tpp)) eqn:E1;
    rewrite create_if_valid_inr;
    destruct (check_value EffectToSmallError (mean_diff_per_dev tpp)) eqn:E2;
    cbv [mret M_ret]; apply Hend;
    unfold c3, TestedPairProperty_checks; cbn [created];
    rewrite ?E1, ?E2; done.
Qed.

Lemma NoDup_seq_app a n l :
  (forall x, x ∈ l -> a + n <= x) -> NoDup l -> NoDup (seq a n ++ l).
Proof.
  intros Hl Hnd. apply NoDup_app. split; [apply NoDup_seq|]. split; [|done].
  intros x Hx%elem_of_seq Hx'%Hl. lia.
Qed.

(** The first [get_stat_messages()] of a comparison whose samples have
    not been asked yet. *)
Lemma TestedPairProperty_get_stat_messages_fresh sq tpp σ :
  is_empty (tpp_stat_messages tpp) = true ->
  is_empty (sp_stat_messages (tpp_first tpp)) = true ->
  is_empty (sp_stat_messages (tpp_second tpp)) = true ->
  exists l tpp' σ',
    TestedPairProperty_get_stat_messages sq tpp σ = Ok (l, tpp', σ')
    /\ tpp_stat_messages tpp' = Some l
    /\ (forall c v, (c, v) ∈ TestedPairProperty_checks tpp ->
          check_value c v = false ->
          exists m, m ∈ items l /\ cls m = c /\ v ∈ values m)
    /\ (forall m, m ∈ items l -> type_of (cls m) = Some ERROR ->
          exists m', m' ∈ items l /\ type_of (cls m') = Some WARNING).
Proof.
  intros He He1 He2. unfold TestedPairProperty_get_stat_messages.
  rewrite get_stat_messages_fill by done.
  destruct (TestedPairProperty__get_stat_messages_fresh sq σ He1 He2)
    as (msgs & tpp0 & c1 & c2 & c3 & σ1 & σ2
        & Hget & Hom & Hst & Hc1 & Hσ1 & Hc2 & Hσ2 & Hc3).
  cbv [mbind M_bind mret M_ret]. rewrite Hget.
  assert (NoDup (msg_id <$> omap id msgs)) as Hnd.
  { rewrite Hom, !fmap_app. rewrite Hc1 at 1. rewrite Hc2 at 1. rewrite Hc3.
    rewrite !created_ids. rewrite <- Hc1, <- Hc2, <- Hc3.
    apply NoDup_seq_app.
    - intros x [Hx|Hx]%elem_of_app; apply elem_of_seq in Hx; lia.
    - apply NoDup_seq_app; [|apply NoDup_seq].
      intros x Hx%elem_of_seq. lia. }
  assert (below (length c3 + σ2) (omap id msgs)) as Hlt.
  { intros x Hx. rewrite Hom in Hx.
    apply list_elem_of_In in Hx.
    apply elem_of_app in Hx as [Hx|Hx]; [|apply elem_of_app in Hx as [Hx|Hx]].
    - rewrite Hc1 in Hx. apply created_range in Hx. rewrite <- Hc1 in Hx. lia.
    - rewrite Hc2 in Hx. apply created_range in Hx. rewrite <- Hc2 in Hx. lia.
    - rewrite Hc3 in Hx. apply created_range in Hx. rewrite <- Hc3 in Hx. lia. }
  assert (forall x, In x (omap id msgs) -> message_invariant x) as Hinv.
  { intros x Hx. rewrite Hom in Hx. apply list_elem_of_In in Hx.
    apply elem_of_app in Hx as [Hx|Hx]; [|apply elem_of_app in Hx as [Hx|Hx]].
    - rewrite Hc1 in Hx. by apply created_invariant in Hx.
    - rewrite Hc2 in Hx. by apply created_invariant in Hx.
    - rewrite Hc3 in Hx. by apply created_invariant in Hx. }
  destruct (@combine_returns msgs (length c3 + σ2) Hinv) as (l & σ' & Hc).
  rewrite Hc. exists l, (TestedPairProperty_set_stat_messages tpp0 l), σ'.
  split; [done|]. split; [done|].
  destruct (combine_shown Hnd Hlt Hc) as [_ Hv]. split.
  - intros c v Hin Hch.
    apply elem_of_shown_values. rewrite Hv. apply elem_of_shown_values.
    pose proof (created_cls (OTestedPairProperty (view_tpp tpp))
                  (tpp_property tpp) σ2 Hin Hch) as Hcl.
    apply list_elem_of_fmap in Hcl as (m & -> & Hm).
    exists m. rewrite Hom, !elem_of_app, Hc3. split; [by auto|].
    split; [done|].
    apply created_elem in Hm as (_ & _ & v' & Hv' & Hin' & _).
    rewrite Hv'. apply list_elem_of_singleton.
    revert Hin Hin'. unfold TestedPairProperty_checks.
    rewrite !elem_of_cons, !elem_of_nil. intuition congruence.
  - intros m Hm Ht.
    assert (cls m ∈ cls <$> items l) as Hcm
      by (apply list_elem_of_fmap; by exists m).
    apply (combine_classes (cls m) Hnd Hlt Hinv Hc) in Hcm.
    apply list_elem_of_fmap in Hcm as (m0 & Hcm & Hm0). rewrite Hcm in Ht.
    assert (exists m1, m1 ∈ omap id msgs /\ type_of (cls m1) = Some WARNING)
      as (m1 & Hm1 & Ht1).
    { rewrite Hom in Hm0 |- *.
      apply elem_of_app in Hm0 as [Hx|Hx];
        [|apply elem_of_app in Hx as [Hx|Hx]].
      - rewrite Hc1 in Hx.
        destruct (created_advisory
                    (@SingleProperty_checks_advisory _ sq (tpp_first tpp))
                    Hx Ht) as (m1 & Hm1 & Ht1).
        exists m1. rewrite !elem_of_app, Hc1. by auto.
      - rewrite Hc2 in Hx.
        destruct (created_advisory
                    (@SingleProperty_checks_advisory _ sq (tpp_second tpp))
                    Hx Ht) as (m1 & Hm1 & Ht1).
        exists m1. rewrite !elem_of_app, Hc2. by auto.
      - rewrite Hc3 in Hx.
        destruct (created_advisory
                    (@TestedPairProperty_checks_advisory _ tpp) Hx Ht)
          as (m1 & Hm1 & Ht1).
        exists m1. rewrite !elem_of_app, Hc3. by auto. }
    assert (cls m1 ∈ cls <$> items l) as Hc1'.
    { apply (combine_classes (cls m1) Hnd Hlt Hinv Hc).
      apply list_elem_of_fmap. by exists m1. }
    apply list_elem_of_fmap in Hc1' as (m' & Hcm' & Hm').
    exists m'. split; [done|]. by rewrite <- Hcm'.
Qed.


(** X15: a comparison never has an error without an advisory: when the
    first [has_errors()] of a comparison whose samples have not been asked
    yet is true, every later [has_warnings()] is true too and is answered
    from the stored list. *)
Theorem TestedPairProperty_has_errors_has_warnings sq tpp σ tpp' σ' :
  is_empty (tpp_stat_messages tpp) = true ->
  is_empty (sp_stat_messages (tpp_first tpp)) = true ->
  is_empty (sp_stat_messages (tpp_second tpp)) = true ->
  BaseStatObject_has_errors (TestedPairProperty_get_stat_messages sq) tpp σ
  = Ok (true, tpp', σ') ->
  forall σ'',
    BaseStatObject_has_warnings (TestedPairProperty_get_stat_messages sq)
      tpp' σ''
    = Ok (true, tpp', σ'').
Proof.
  intros He He1 He2 H σ''.
  destruct (TestedPairProperty_get_stat_messages_fresh sq σ He He1 He2)
    as (l & tpp0 & σ0 & Hl & Hf & _ & Hadv).
  unfold BaseStatObject_has_errors in H. cbv [mbind M_bind mret M_ret] in H.
  rewrite Hl in H. injection H as Hex <- <-.
  apply existsb_has_type in Hex as (m & Hm & Ht).
  destruct (Hadv m Hm Ht) as (m' & Hm' & Ht').
  unfold BaseStatObject_has_warnings, TestedPairProperty_get_stat_messages.
  cbv [mbind M_bind mret M_ret].
  rewrite (@get_stat_messages_hit _ _ _ _ _ l); [|done|].
  - assert (existsb (has_type WARNING) (items l) = true) as ->; [|done].
    apply existsb_has_type. by exists m'.
  - intros Hnil. rewrite Hnil in Hm'. by apply elem_of_nil in Hm'.
Qed.

(** ** [eq_except_property] as an equivalence *)


(** ** The tabular projection of a sample *)



(** ** The properties that the samples of a collection share *)

Lemma TestedPairsAndSingles_init_singles t runs :
  exists c,
    TestedPairsAndSingles_init t (inl <$> runs) None = Ok c
    /\ singles c = single_of <$> runs.
Proof.
  unfold TestedPairsAndSingles_init.
  rewrite (Single_init_loop runs []). simpl.
  assert (Forall coherent (single_of <$> runs)) as Hc.
  { apply Forall_fmap, Forall_forall. intros r _.
    apply (Single_init_coherent (Single_init_run r)). }
  destruct (@get_pair_loop t (single_of <$> runs)
              (index_pairs (length (single_of <$> runs))) [] Hc)
    as (ps & Hps & _).
  { intros i j Hij. apply index_pairs_range in Hij. lia. }
  case_bool_decide.
  - rewrite Hps. simpl. by eexists.
  - by eexists.
Qed.

(** X18: for the collection of one or more runs, [properties()] returns
    the names that every run has, sorted and each once. *)
Theorem properties_of_runs t r runs :
  exists c l,
    TestedPairsAndSingles_init t (inl <$> r :: runs) None = Ok c
    /\ TestedPairsAndSingles_properties c = Some l
    /\ Sorted str_le l /\ NoDup l
    /\ forall p, p ∈ l
         <-> forall r', r' ∈ r :: runs -> is_Some (run_data r' !! p).
Proof.
  destruct (TestedPairsAndSingles_init_singles t (r :: runs)) as (c & Hc & Hs).
  destruct (@properties_nonempty _ c) as (l & Hl & Hsorted & Hnd & Hin).
  { by rewrite Hs. }
  exists c, l. repeat split; try done.
  - intros Hp r' Hr'. apply dom_single_of, Hin; [done|].
    rewrite Hs. apply list_elem_of_fmap. by exists r'.
  - intros Hall. apply Hin. intros s. rewrite Hs.
    intros (r' & -> & Hr')%list_elem_of_fmap. by apply dom_single_of, Hall.
Qed.

(** ** Samples of one value *)









(** ** The diagnostics of a sample *)














(** ** The diagnostics of a pair and of a collection *)













(** ** [warnings()] and [errors()] *)

(** X23: [warnings()] and [errors()] of a property of a sample split the
    messages of [get_stat_messages()] between them, and there are never
    more errors than advisories: each error comes with the advisory of the
    class that it extends. *)
Theorem SingleProperty_warnings_errors sq sp σ :
  is_empty (sp_stat_messages sp) = true ->
  exists l sp' σ' ws es,
    SingleProperty_get_stat_messages sq sp σ = Ok (l, sp', σ')
    /\ BaseStatObject_warnings (SingleProperty_get_stat_messages sq) sp σ
       = Ok (ws, sp', σ')
    /\ BaseStatObject_errors (SingleProperty_get_stat_messages sq) sp σ
       = Ok (es, sp', σ')
    /\ length ws + length es = length (items l)
    /\ length es <= length ws
    /\ (forall m, m ∈ items l -> m ∈ ws \/ m ∈ es).
Proof.
  intros He.
  destruct (SingleProperty_get_stat_messages_fresh sq σ He) as (l & H & Hi & _).
  exists l, (SingleProperty_set_stat_messages sp l), (S (list_id l)),
    (List.filter (has_type WARNING) (items l)),
    (List.filter (has_type ERROR) (items l)).
  split; [done|].
  split. { unfold BaseStatObject_warnings. cbv [mbind M_bind]. by rewrite H. }
  split. { unfold BaseStatObject_errors. cbv [mbind M_bind]. by rewrite H. }
  rewrite Hi. unfold SingleProperty_checks. cbn [created].
  pose proof (@check_value_advisory StdDeviationToHighError
                StdDeviationToHighWarning (std_dev_per_mean sq sp) eq_refl)
    as A1.
  pose proof (@check_value_advisory NotEnoughObservationsError
                NotEnoughObservationsWarning (of_int (observations sp)) eq_refl)
    as A2.
  destruct (check_value StdDeviationToHighWarning _) eqn:E1,
    (check_value StdDeviationToHighError _) eqn:E2,
    (check_value NotEnoughObservationsWarning _) eqn:E3,
    (check_value NotEnoughObservationsError _) eqn:E4;
    try (specialize (A1 eq_refl); congruence);
    try (specialize (A2 eq_refl); congruence);
    (split; [reflexivity|]); (split; [simpl; lia|]);
    intros m Hm; cbn [List.filter has_type type_of cls];
    rewrite ?elem_of_cons in Hm |- *; rewrite ?elem_of_nil in Hm |- *; tauto.
Qed.

(** ** Instances of the further properties *)

(** The two ways to merge the messages about "time", "mem" and "time". *)
Lemma add_assoc_witness :
  StatMessage_add msg_time msg_mem 2 = Ok (msg_merged, 3)
  /\ StatMessage_add msg_merged msg_time 3 = Ok (msg_left, 4)
  /\ StatMessage_add msg_mem msg_time 4 = Ok (msg_mem_time, 5)
  /\ StatMessage_add msg_time msg_mem_time 5 = Ok (msg_right, 6)
  /\ (cls msg_left = cls msg_right /\ parent msg_left = parent msg_right
      /\ properties msg_left = properties msg_right
      /\ values msg_left = values msg_right).
Proof.
  assert (StatMessage_add msg_time msg_mem 2 = Ok (msg_merged, 3)) as H1
    by reflexivity.
  assert (StatMessage_add msg_merged msg_time 3 = Ok (msg_left, 4)) as H2
    by reflexivity.
  assert (StatMessage_add msg_mem msg_time 4 = Ok (msg_mem_time, 5)) as H3
    by reflexivity.
  assert (StatMessage_add msg_time msg_mem_time 5 = Ok (msg_right, 6)) as H4
    by reflexivity.
  split; [exact H1|]. split; [exact H2|]. split; [exact H3|].
  split; [exact H4|]. exact (add_assoc H1 H2 H3 H4).
Defined.

(** [combine] of the two messages and of [None]: the merged message shows
    "time" and "mem", 3 and 2. *)
Lemma combine_preserves_shown_witness :
  combine [Some msg_time; None; Some msg_mem] 2
  = Ok ({| list_id := 3; items := [msg_merged] |}, 4)
  /\ Permutation (shown_properties [msg_merged])
       (shown_properties [msg_time; msg_mem])
  /\ Permutation (shown_values [msg_merged]) (shown_values [msg_time; msg_mem]).
Proof.
  split; [reflexivity|].
  refine (@combine_preserves_shown [Some msg_time; None; Some msg_mem] 2
            {| list_id := 3; items := [msg_merged] |} 4 _ _ eq_refl).
  - simpl. apply NoDup_cons. split; [|apply NoDup_singleton].
    intros H%list_elem_of_singleton. discriminate H.
  - intros x [<-|[<-|[]]]; simpl; lia.
Defined.

Lemma combine_keeps_invariant_witness :
  exists l σ',
    combine [Some msg_time; None; Some msg_mem] 2 = Ok (l, σ')
    /\ forall x, In x (items l) -> message_invariant x.
Proof.
  apply (@combine_keeps_invariant [Some msg_time; None; Some msg_mem] 2).
  intros x [<-|[<-|[]]]; (split; [discriminate|]);
    (split; [repeat constructor|reflexivity]).
Defined.

(** The copy of the sample of the run C with a filled message field. *)
Lemma Single_init_copy_witness :
  Single_init (inr (Single_set_stat_messages (single_of run_C) list_A10))
  = Ok (single_of run_C).
Proof.
  apply (@Single_init_copy (inl run_C) (single_of run_C)
           (Single_set_stat_messages (single_of run_C) list_A10)).
  - vm_compute; reflexivity.
  - vm_compute; reflexivity.
Defined.

(** The pair of the runs C and D, swapped twice. *)
Lemma swap_swap_witness :
  exists swapped,
    swap ex_tester (pair_of run_C run_D ["mem"; "time"]) = Ok swapped
    /\ swap ex_tester swapped = Ok (pair_of run_C run_D ["mem"; "time"]).
Proof.
  assert (TestedPair_init ex_tester (inl run_C) (inl run_D) None
          = Ok (pair_of run_C run_D ["mem"; "time"])) as H
    by (vm_compute; reflexivity).
  exact (swap_swap H).
Defined.

Lemma swap_statistics_witness :
  exists swapped,
    swap ex_tester (pair_of run_C run_D ["mem"; "time"]) = Ok swapped
    /\ forall property,
         property ∈ dom (s_properties (single_of run_C))
                    ∩ dom (s_properties (single_of run_D)) ->
         exists tpp tpp',
           TestedPair_getitem (pair_of run_C run_D ["mem"; "time"]) property
           = Ok tpp
           /\ TestedPair_getitem swapped property = Ok tpp'
           /\ (max_std_dev tpp' == max_std_dev tpp)%Q
           /\ (mean_std_dev tpp' == mean_std_dev tpp)%Q
           /\ (mean_diff_per_dev tpp' == - mean_diff_per_dev tpp)%Q.
Proof.
  assert (TestedPair_init ex_tester (inl run_C) (inl run_D) None
          = Ok (pair_of run_C run_D ["mem"; "time"])) as H
    by (vm_compute; reflexivity).
  exact (swap_statistics H).
Defined.

(** The collection of the runs A10 and B10: the pair (0, 1) is there, the
    pair (0, 2) and the sample 2 are not. *)
Lemma collection_lookups_checked_witness :
  (exists p,
     get_pair ex_tester collection_A10_B10 0 1 = Ok p
     /\ singles collection_A10_B10 !! 0 = Some (tp_first p)
     /\ singles collection_A10_B10 !! 1 = Some (tp_second p))
  /\ get_pair ex_tester collection_A10_B10 0 2 = Raise AssertionError
  /\ TestedPairsAndSingles_getitem collection_A10_B10 2 = Raise AssertionError.
Proof.
  assert (TestedPairsAndSingles_init ex_tester [inl run_A10; inl run_B10] None
          = Ok collection_A10_B10) as H by (vm_compute; reflexivity).
  split; [exact (proj1 (@collection_lookups_checked _ _ _ _ 0%Z 1%Z H))|].
  split; [exact (proj1 (@collection_lookups_checked _ _ _ _ 0%Z 2%Z H))|].
  exact (proj2 (@collection_lookups_checked _ _ _ _ 2%Z 0%Z H)).
Defined.

(** The property "time" of the run A10, with 10 observations: the
    advisory and the error about the number of observations. *)
Lemma SingleProperty_diagnostics_witness :
  exists l,
    SingleProperty_get_stat_messages ex_sqrt (sp_of run_A10 "time") 0
    = Ok (l, SingleProperty_set_stat_messages (sp_of run_A10 "time") l,
          S (list_id l))
    /\ NoDup (cls <$> items l)
    /\ (forall m, m ∈ items l ->
          parent m = OSingleProperty (view_sp (sp_of run_A10 "time"))
          /\ properties m = ["time"] /\ length (values m) = 1)
    /\ (NotEnoughObservationsWarning ∈ cls <$> items l
        <-> observations (sp_of run_A10 "time") < 30)
    /\ (NotEnoughObservationsError ∈ cls <$> items l
        <-> observations (sp_of run_A10 "time") < 15).
Proof.
  exact (@SingleProperty_diagnostics ex_sqrt (sp_of run_A10 "time") 0 eq_refl).
Defined.

Lemma SingleProperty_has_errors_has_warnings_witness :
  BaseStatObject_has_errors (SingleProperty_get_stat_messages ex_sqrt)
    (sp_of run_A10 "time") 0 = Ok (true, sp_A10_filled, 3)
  /\ forall σ'',
       BaseStatObject_has_warnings (SingleProperty_get_stat_messages ex_sqrt)
         sp_A10_filled σ''
       = Ok (true, sp_A10_filled, σ'').
Proof.
  assert (BaseStatObject_has_errors (SingleProperty_get_stat_messages ex_sqrt)
            (sp_of run_A10 "time") 0 = Ok (true, sp_A10_filled, 3)) as H
    by (vm_compute; reflexivity).
  split; [exact H|].
  exact (@SingleProperty_has_errors_has_warnings ex_sqrt
           (sp_of run_A10 "time") 0 sp_A10_filled 3 eq_refl H).
Defined.


Lemma TestedPairProperty_has_errors_has_warnings_witness :
  exists tpp' σ',
    BaseStatObject_has_errors (TestedPairProperty_get_stat_messages ex_sqrt)
      (tpp_of run_A10 run_B10 "time") 0 = Ok (true, tpp', σ')
    /\ forall σ'',
         BaseStatObject_has_warnings
           (TestedPairProperty_get_stat_messages ex_sqrt) tpp' σ''
         = Ok (true, tpp', σ'').
Proof.
  assert (exists tpp' σ',
            BaseStatObject_has_errors
              (TestedPairProperty_get_stat_messages ex_sqrt)
              (tpp_of run_A10 run_B10 "time") 0 = Ok (true, tpp', σ'))
    as (tpp' & σ' & H).
  { eexists _, _. vm_compute. reflexivity. }
  exists tpp', σ'. split; [exact H|].
  exact (@TestedPairProperty_has_errors_has_warnings ex_sqrt
           (tpp_of run_A10 run_B10 "time") 0 tpp' σ' eq_refl eq_refl eq_refl H).
Defined.






Lemma SingleProperty_warnings_errors_witness :
  exists l sp' σ' ws es,
    SingleProperty_get_stat_messages ex_sqrt (sp_of run_A10 "time") 0
    = Ok (l, sp', σ')
    /\ BaseStatObject_warnings (SingleProperty_get_stat_messages ex_sqrt)
         (sp_of run_A10 "time") 0 = Ok (ws, sp', σ')
    /\ BaseStatObject_errors (SingleProperty_get_stat_messages ex_sqrt)
         (sp_of run_A10 "time") 0 = Ok (es, sp', σ')
    /\ length ws + length es = length (items l)
    /\ length es <= length ws
    /\ (forall m, m ∈ items l -> m ∈ ws \/ m ∈ es).
Proof.
  exact (@SingleProperty_warnings_errors ex_sqrt (sp_of run_A10 "time") 0
           eq_refl).
Defined.
